(** * remit: the emitter (lib/Emitter.js)

    A shallow embedding of [Emitter._generateOptions],
    [Emitter._setupDemitQueue] and [Emitter._send], and the properties of
    the delayed / scheduled emission protocol and of the worker pool
    discipline that are checked against it.

    Conventions.
    - JavaScript numbers are modelled by [number]: the integral values
      (milliseconds, priorities, time values of Dates) exactly, as [Z],
      together with [NaN] and the two infinities.  Fractions and the
      rounding of doubles beyond 2^53 are outside the model.
    - Option objects are finite maps from property names to values
      ([gmap string jsval]); [Object.assign] is the (right-biased) union.
    - Every call that leaves the emitter (pool, broker channel, tracer,
      console, local listeners) is recorded in a trace of [event]s; what
      the outside answers is read from a [world], which may look at the
      whole history of events so far. *)

From Stdlib Require Import ZArith String Ascii List Bool Lia.
From stdpp Require Import base option strings pretty gmap fin_maps.

Local Open Scope Z_scope.
Local Open Scope string_scope.

(** ** Numbers *)

Inductive number : Type :=
| NaN
| PInf
| NInf
| Finite (z : Z).

Definition number_eqb (a b : number) : bool :=
  match a, b with
  | NaN, NaN => true
  | PInf, PInf => true
  | NInf, NInf => true
  | Finite x, Finite y => Z.eqb x y
  | _, _ => false
  end.

(** [a < b] on numbers: every comparison with [NaN] is false. *)
Definition num_lt (a b : number) : bool :=
  match a, b with
  | NaN, _ | _, NaN => false
  | PInf, _ => false
  | _, NInf => false
  | NInf, _ => true
  | Finite _, PInf => true
  | Finite x, Finite y => Z.ltb x y
  end.

Definition num_neg (a : number) : number :=
  match a with
  | NaN => NaN
  | PInf => NInf
  | NInf => PInf
  | Finite z => Finite (- z)
  end.

Definition num_add (a b : number) : number :=
  match a, b with
  | NaN, _ | _, NaN => NaN
  | PInf, NInf | NInf, PInf => NaN
  | PInf, _ | _, PInf => PInf
  | NInf, _ | _, NInf => NInf
  | Finite x, Finite y => Finite (x + y)
  end.

Definition num_sub (a b : number) : number := num_add a (num_neg b).

Definition num_mul (a b : number) : number :=
  match a, b with
  | NaN, _ | _, NaN => NaN
  | Finite x, Finite y => Finite (x * y)
  | Finite x, inf | inf, Finite x =>
      if Z.eqb x 0 then NaN
      else if Z.ltb x 0 then num_neg inf else inf
  | PInf, PInf | NInf, NInf => PInf
  | PInf, NInf | NInf, PInf => NInf
  end.

(** ToBoolean on a number: [0] and [NaN] are falsy. *)
Definition num_truthy (a : number) : bool :=
  match a with
  | NaN => false
  | Finite z => negb (Z.eqb z 0)
  | _ => true
  end.

(** Number::toString, radix 10: the decimal digits of the integer.  This is
    what JavaScript prints for every integer of magnitude below 2^53, which
    covers all time values; beyond, JavaScript prints the digits of the
    nearest double (and an exponent from 10^21 on). *)
Definition num_to_string (a : number) : string :=
  match a with
  | NaN => "NaN"
  | PInf => "Infinity"
  | NInf => "-Infinity"
  | Finite z => pretty z
  end.

(** ** Values *)

(** The values an option field can hold: the primitives and [Date]
    objects ([JDate None] is an Invalid Date). *)
Inductive jsval : Type :=
| JUndefined
| JNull
| JBool (b : bool)
| JNum (n : number)
| JStr (s : string)
| JDate (t : option Z).

(** A thrown [Error] object. *)
Inductive exn : Type :=
| Error (message : string).

Definition message (e : exn) : string :=
  match e with Error m => m end.

(** Normal or abrupt completion of a call. *)
Inductive completion (A : Type) : Type :=
| Ok (a : A)
| Throw (e : exn).
Arguments Ok {A} a.
Arguments Throw {A} e.

(** Payloads handed to [send]: a primitive or Date, a function, or a
    reference to an array or plain object. *)
Inductive payload : Type :=
| PVal (v : jsval)
| PFunction
| PObject (ref : nat).

(** [x instanceof Date] *)
Definition instanceof_Date (v : jsval) : bool :=
  match v with JDate _ => true | _ => false end.

(** [v.toString() === 'Invalid Date'] for a [v] that is a Date. *)
Definition toString_is_Invalid_Date (v : jsval) : bool :=
  match v with JDate None => true | _ => false end.

(** ToBoolean *)
Definition truthy (v : jsval) : bool :=
  match v with
  | JUndefined | JNull => false
  | JBool b => b
  | JNum n => num_truthy n
  | JStr s => negb (String.eqb s EmptyString)
  | JDate _ => true
  end.


(** Option objects. *)
Abbreviation obj := (gmap string jsval).

(** [o.k]: reading a missing property gives [undefined]. *)
Definition get (k : string) (o : obj) : jsval := default JUndefined (o !! k).

(** [o.hasOwnProperty(k)] *)
Definition hasOwnProperty (o : obj) (k : string) : bool :=
  bool_decide (is_Some (o !! k)).

(** [Object.assign({}, a, b, c)]: later sources win. *)
Definition Object_assign3 (a b c : obj) : obj := c ∪ (b ∪ a).

(** ** The envelope, the queue declaration and the result records *)

Module Headers.
(** [message.headers]: [scheduled] and [delay] are only set on the
    deferred path. *)
Record t : Type := mk {
  trace : string;
  context : list (string * string);
  scheduled : option number;
  delay : option jsval
}.
End Headers.

Module Message.
(** The [message] object built by [_send]; [priority] and [expiration]
    are properties that may be missing. *)
Record t : Type := mk {
  mandatory : bool;
  messageId : string;
  appId : string;
  timestamp : Z;
  headers : Headers.t;
  persistent : bool;
  priority : option jsval;
  expiration : option jsval
}.

(** [message.priority = p] *)
Definition set_priority (p : jsval) (m : t) : t :=
  mk (mandatory m) (messageId m) (appId m) (timestamp m) (headers m)
     (persistent m) (Some p) (expiration m).

(** [message.headers.scheduled = n; message.expiration = e] *)
Definition set_scheduled (n : number) (e : jsval) (m : t) : t :=
  let h := headers m in
  mk (mandatory m) (messageId m) (appId m) (timestamp m)
     (Headers.mk (Headers.trace h) (Headers.context h) (Some n) (Headers.delay h))
     (persistent m) (priority m) (Some e).

(** [tracer.inject(..., message.headers.context)] *)
Definition set_context (c : list (string * string)) (m : t) : t :=
  let h := headers m in
  mk (mandatory m) (messageId m) (appId m) (timestamp m)
     (Headers.mk (Headers.trace h) c (Headers.scheduled h) (Headers.delay h))
     (persistent m) (priority m) (expiration m).

(** [message.headers.delay = d] *)
Definition set_delay (d : jsval) (m : t) : t :=
  let h := headers m in
  mk (mandatory m) (messageId m) (appId m) (timestamp m)
     (Headers.mk (Headers.trace h) (Headers.context h) (Headers.scheduled h) (Some d))
     (persistent m) (priority m) (expiration m).
End Message.

Module QueueOpts.
(** The [queueOpts] object handed to [assertQueue]. *)
Record t : Type := mk {
  exclusive : bool;
  durable : bool;
  autoDelete : bool;
  deadLetterExchange : string;
  deadLetterRoutingKey : jsval;
  messageTtl : option jsval;
  expires : option jsval
}.
End QueueOpts.

Module DemitQueue.
(** What [_setupDemitQueue] resolves to when it is not [false]. *)
Record t : Type := mk {
  queue : string;
  expiration : jsval
}.
End DemitQueue.

Module SentEvent.
(** Modelled from the spec: utils/parseEvent, which builds the event
    given to the local listeners and returned by [send], is not in
    lib/Emitter.js.  The spec describes its result as the normalized
    view of the envelope plus the original payload and a flow marker, so
    the event keeps the four arguments of the call. *)
Record t : Type := mk {
  envelope : Message.t;
  routingKey : jsval;
  data : payload;
  flowType : string
}.
End SentEvent.

Definition parseEvent (m : Message.t) (routingKey : jsval) (data : payload)
    (flowType : string) : SentEvent.t :=
  SentEvent.mk m routingKey data flowType.

(** ** The emitter and what surrounds it *)

(** The parts of [this._remit] the emitter reads. *)
Record remit : Type := {
  _exchange : string;
  name : string;          (* this._remit._options.name *)
  version : string
}.

(** [this]: [_options] is [None] until the constructor has stored the
    defaults. *)
Record Emitter : Type := {
  _remit : remit;
  _options : option obj
}.

(** What one call of [_send] reads from its surroundings before it does
    anything else: the parsed call site, the clock, a fresh uuid and the
    carrier the tracer injects into [message.headers.context]. *)
Record ambient : Type := {
  callsite : string;
  now : Z;
  uuid : string;
  carrier : list (string * string)
}.

(** A worker (channel) of the pool [this._remit._workers]. *)
Definition handle : Type := nat.

(** The calls that leave the emitter, in the order they are made. *)
Inductive event : Type :=
| Warn (text : string)
| StartSpan (name : string) (outgoing : payload)
| FinishSpan
| Acquired (w : handle)
| AcquireFailed (e : exn)
| Release (w : handle)
| Destroy (w : handle)
| AssertQueue (w : handle) (queue : string) (queueOpts : QueueOpts.t)
| SendToQueue (w : handle) (queue : string) (body : string) (m : Message.t)
| Publish (w : handle) (exchange : string) (routingKey : jsval) (body : string)
    (m : Message.t)
| Yield
| EmitSent (ev : SentEvent.t).

(** The answers of the outside.  Each one is given the events so far.
    [acquire] resolves with a worker or rejects; the channel operations
    and the ['sent'] listeners either return ([None]) or throw. *)
Record world : Type := {
  acquire : list event -> completion handle;
  assertQueue : list event -> handle -> string -> QueueOpts.t -> option exn;
  sendToQueue : list event -> handle -> string -> string -> Message.t -> option exn;
  publish : list event -> handle -> string -> jsval -> string -> Message.t -> option exn;
  listeners : list event -> SentEvent.t -> option exn
}.

(** ** The pool discipline *)

(** Whether the channel refuses the call [e] when it is made after the
    events [hist]. *)
Definition refused (W : world) (hist : list event) (e : event) : bool :=
  match e with
  | AssertQueue w q qo =>
      match assertQueue W hist w q qo with Some _ => true | None => false end
  | SendToQueue w q body m =>
      match sendToQueue W hist w q body m with Some _ => true | None => false end
  | Publish w x k body m =>
      match publish W hist w x k body m with Some _ => true | None => false end
  | _ => false
  end.

(** A trace [t], made after the events [hist], keeps the pool discipline
    when, read from the left with [held] the worker currently held and
    whether a call on it was refused: a worker is only acquired while none
    is held; a channel call is only made on the worker held, and not after
    a refused one; the worker held is released if and only if no call on
    it was refused, and destroyed if and only if one was; and no worker is
    held at the end. *)
Fixpoint disciplined (W : world) (hist : list event) (held : option (handle * bool))
    (t : list event) : bool :=
  match t with
  | [] => match held with None => true | Some _ => false end
  | e :: t' =>
      let hist' := (hist ++ [e])%list in
      match e with
      | Acquired w =>
          match held with
          | None => disciplined W hist' (Some (w, false)) t'
          | Some _ => false
          end
      | Release w =>
          match held with
          | Some (w', false) => Nat.eqb w w' && disciplined W hist' None t'
          | _ => false
          end
      | Destroy w =>
          match held with
          | Some (w', true) => Nat.eqb w w' && disciplined W hist' None t'
          | _ => false
          end
      | AssertQueue w _ _ | SendToQueue w _ _ _ | Publish w _ _ _ _ =>
          match held with
          | Some (w', false) =>
              Nat.eqb w w' && disciplined W hist' (Some (w', refused W hist e)) t'
          | _ => false
          end
      | _ => disciplined W hist' held t'
      end
  end.

(** ** Computations: a history to read, a trace to write, and exceptions *)

Definition M (A : Type) : Type := list event -> completion A * list event.

Definition ret {A} (a : A) : M A := fun _ => (Ok a, []).

Definition throw {A} (e : exn) : M A := fun _ => (Throw e, []).

Definition bind {A B} (m : M A) (k : A -> M B) : M B :=
  fun h =>
    match m h with
    | (Ok a, t) => let '(r, t') := k a (h ++ t)%list in (r, (t ++ t')%list)
    | (Throw e, t) => (Throw e, t)
    end.

(** [try { m } catch (e) { handler e }] *)
Definition try_catch {A} (m : M A) (handler : exn -> M A) : M A :=
  fun h =>
    match m h with
    | (Ok a, t) => (Ok a, t)
    | (Throw e, t) => let '(r, t') := handler e (h ++ t)%list in (r, (t ++ t')%list)
    end.

(** A pure step that may throw. *)
Definition lift {A} (c : completion A) : M A := fun _ => (c, []).

(** Record one call. *)
Definition tell (e : event) : M unit := fun _ => (Ok tt, [e]).

(** [await pool.acquire()] *)
Definition acquiring (answer : list event -> completion handle) : M handle :=
  fun h =>
    match answer h with
    | Ok w => (Ok w, [Acquired w])
    | Throw err => (Throw err, [AcquireFailed err])
    end.

(** Record one call and throw if the outside says so. *)
Definition call (e : event) (answer : list event -> option exn) : M unit :=
  fun h =>
    match answer h with
    | None => (Ok tt, [e])
    | Some err => (Throw err, [e])
    end.

Notation "'let*' x ':=' m 'in' k" := (bind m (fun x => k))
  (at level 10, x name, m at level 100, k at level 200).
Notation "m ;; k" := (bind m (fun _ => k))
  (at level 100, k at level 200, right associativity).

(** The outcome and the trace of a computation started after history [h]. *)
Definition outcome {A} (m : M A) (h : list event) : completion A := fst (m h).
Definition emitted {A} (m : M A) (h : list event) : list event := snd (m h).

(** ** The emitter's code *)

Definition dquote : string := String "034"%char EmptyString.

Definition invalid_priority_message (p : string) : string :=
  "Invalid priority " +:+ dquote +:+ p +:+ dquote +:+ " when making request".

Definition invalid_delay_message : string :=
  "Invalid delay date or duration when attempting to send a delayed emission".

Definition unparsable_warning : string :=
  "[WARN] Remit emit sent with unparsable JSON; this could be a function or an undefined variable. Data instead set to NULL.".

Definition inequivalent_x_expires : string := "inequivalent arg 'x-expires'".

(** ** The constructor's argument and the pool discipline *)

(** The second argument of [new Emitter(remit, opts)]: an event name
    ([typeof opts === 'string']) or an options object. *)
Inductive emitter_arg : Type :=
| EventName (s : string)
| Options (o : obj).

Definition no_event_message : string :=
  "No/invalid event specified when creating an emission".

(** ** A small concrete runtime

    Used to run the code on examples.  The duration parser knows the few
    strings the examples use and answers [undefined] otherwise, as [ms]
    does for a string it cannot parse; the examples never convert a string
    to a number. *)
Module Sample.
Definition StringToNumber (s : string) : number :=
  if String.eqb s EmptyString then Finite 0 else NaN.

Definition Date_toString (t : Z) : string := "Date(" +:+ pretty t +:+ ")".

Definition ms (s : string) : completion jsval :=
  if String.eqb s "5m" then Ok (JNum (Finite 300000))
  else if String.eqb s "1s" then Ok (JNum (Finite 1000))
  else Ok JUndefined.

Definition JSON_stringify (p : payload) : completion (option string) :=
  match p with
  | PVal JUndefined | PFunction => Ok None
  | PVal JNull => Ok (Some "null")
  | PVal (JBool b) => Ok (Some (if b then "true" else "false"))
  | PVal (JNum (Finite z)) => Ok (Some (pretty z))
  | PVal (JNum _) => Ok (Some "null")
  | PVal (JStr s) => Ok (Some (dquote +:+ s +:+ dquote))
  | PVal (JDate _) => Ok (Some "null")
  | PObject _ => Ok (Some "{}")
  end.

Definition JSON_parse (s : string) : payload :=
  if String.eqb s "null" then PVal JNull else PObject 0.

(** Nothing fails; the pool always hands out worker 7. *)
Definition calm : world :=
  {| acquire := fun _ => Ok 7%nat;
     assertQueue := fun _ _ _ _ => None;
     sendToQueue := fun _ _ _ _ _ => None;
     publish := fun _ _ _ _ _ _ => None;
     listeners := fun _ _ => None |}.

(** As [calm], with a ['sent'] listener that throws. *)
Definition throwing_listener : world :=
  {| acquire := fun _ => Ok 7%nat;
     assertQueue := fun _ _ _ _ => None;
     sendToQueue := fun _ _ _ _ _ => None;
     publish := fun _ _ _ _ _ _ => None;
     listeners := fun _ _ => Some (Error "listener failed") |}.



Definition the_remit : remit :=
  {| _exchange := "remit"; name := "billing"; version := "2.4.0" |}.

(** An emitter created with [remit.emit('order.created')]. *)
Definition emitter : Emitter :=
  {| _remit := the_remit;
     _options := Some (<["event" := JStr "order.created"]> ∅) |}.

Definition amb : ambient :=
  {| callsite := "app.js:10:3"; now := 1700000000000; uuid := "01H";
     carrier := [] |}.

(** Option objects of the examples: what the caller passes, and what
    [_generateOptions] makes of it over the emitter's defaults. *)
Definition event_only : obj := <["event" := JStr "order.created"]> ∅.

Definition delay_5m : obj := <["delay" := JStr "5m"]> ∅.
Definition delay_5m_resolved : obj :=
  <["delay" := JNum (Finite 300000)]> (<["schedule" := JNull]> event_only).

Definition delay_soon : obj := <["delay" := JStr "soon"]> ∅.
Definition delay_soon_resolved : obj :=
  <["delay" := JUndefined]> (<["schedule" := JNull]> event_only).

Definition delay_zero_resolved : obj :=
  <["delay" := JNum (Finite 0)]> (<["schedule" := JNull]> event_only).


Definition schedule_1min_resolved : obj :=
  <["delay" := JNull]> (<["schedule" := JDate (Some 1700000060000)]> event_only).
Definition schedule_2min_resolved : obj :=
  <["delay" := JNull]> (<["schedule" := JDate (Some 1700000120000)]> event_only).

(** Defaults stored by [options({event: 'order.created', delay: 1000})],
    and a later call that passes a [schedule] and no [delay]. *)
Definition delay_1s : obj :=
  <["event" := JStr "order.created"]> (<["delay" := JNum (Finite 1000)]> ∅).
Definition delay_1s_resolved : obj :=
  <["delay" := JNum (Finite 1000)]> (<["schedule" := JNull]> event_only).
Definition emitter_delay_1s : Emitter :=
  {| _remit := the_remit; _options := Some delay_1s_resolved |}.


Definition priority_11 : obj := <["priority" := JNum (Finite 11)]> ∅.
Definition priority_0 : obj := <["priority" := JNum (Finite 0)]> ∅.
Definition priority_0_resolved : obj := <["priority" := JNum (Finite 0)]> event_only.

(** The envelope of a plain send by [emitter] under [amb], and the event
    made from it for the payload [PObject 1]. *)
Definition plain_envelope : Message.t :=
  Message.mk false "01H" "billing" 1700000000000
    (Headers.mk "app.js:10:3" [] None None) true None None.
Definition plain_event : SentEvent.t :=
  SentEvent.mk plain_envelope (JStr "order.created") (PObject 0) "exit".

(** Further collaborators and option objects of the examples. *)

(** A duration parser that throws on the empty string, as [ms] 2 does. *)
Definition strict_ms (s : string) : completion jsval :=
  if String.eqb s EmptyString
  then Throw (Error ("val is not a non-empty string or a valid number. val="
                     +:+ dquote +:+ dquote))
  else ms s.

(** [JSON.stringify] throwing on the object [PObject 0], as it does on a
    circular structure. *)
Definition circular : exn := Error "Converting circular structure to JSON".
Definition strict_JSON_stringify (p : payload) : completion (option string) :=
  match p with
  | PObject O => Throw circular
  | _ => JSON_stringify p
  end.

(** A channel that is closed, and a pool that times out. *)
Definition channel_closed : exn := Error "Channel closed".
Definition refusing : world :=
  {| acquire := fun _ => Ok 7%nat;
     assertQueue := fun _ _ _ _ => None;
     sendToQueue := fun _ _ _ _ _ => Some channel_closed;
     publish := fun _ _ _ _ _ _ => Some channel_closed;
     listeners := fun _ _ => None |}.

Definition pool_timeout : exn := Error "ResourceRequest timed out".
Definition exhausted : world :=
  {| acquire := fun _ => Throw pool_timeout;
     assertQueue := fun _ _ _ _ => None;
     sendToQueue := fun _ _ _ _ _ => None;
     publish := fun _ _ _ _ _ _ => None;
     listeners := fun _ _ => None |}.

Definition delay_empty : obj := <["delay" := JStr EmptyString]> ∅.
Definition delay_invalid_date : obj := <["delay" := JDate None]> ∅.
Definition delay_zero : obj := <["delay" := JNum (Finite 0)]> ∅.
Definition emitter_delay_5m : Emitter :=
  {| _remit := the_remit; _options := Some delay_5m_resolved |}.

Definition priority_3 : obj := <["priority" := JNum (Finite 3)]> ∅.
Definition priority_3_resolved : obj := <["priority" := JNum (Finite 3)]> event_only.
Definition priority_high : obj := <["priority" := JStr "high"]> ∅.
Definition priority_high_resolved : obj := <["priority" := JStr "high"]> event_only.

Definition event_paid : obj := <["event" := JStr "order.paid"]> ∅.
End Sample.

Section Emitter.

(** The language runtime and the libraries the emitter calls:
    ToNumber on strings, [Date.prototype.toString] on a valid Date, the
    [ms] duration parser on a string, [JSON.stringify] (whose result may
    be [undefined], here [None]) and [JSON.parse]. *)
Variable StringToNumber : string -> number.
Variable Date_toString : Z -> string.
Variable ms : string -> completion jsval.
Variable JSON_stringify : payload -> completion (option string).
Variable JSON_parse : string -> payload.

(** The pool, the broker and the local listeners. *)
Variable W : world.

(** ToNumber; on a Date it is the time value. *)
Definition ToNumber (v : jsval) : number :=
  match v with
  | JUndefined => NaN
  | JNull => Finite 0
  | JBool b => Finite (if b then 1 else 0)
  | JNum n => n
  | JStr s => StringToNumber s
  | JDate None => NaN
  | JDate (Some t) => Finite t
  end.

(** ToString, as used by template literals. *)
Definition ToString (v : jsval) : string :=
  match v with
  | JUndefined => "undefined"
  | JNull => "null"
  | JBool b => if b then "true" else "false"
  | JNum n => num_to_string n
  | JStr s => s
  | JDate None => "Invalid Date"
  | JDate (Some t) => Date_toString t
  end.

(** The global [isNaN]. *)
Definition isNaN (v : jsval) : bool := number_eqb (ToNumber v) NaN.

(** [a < b] and [a > b]: two strings are compared as strings, anything
    else as numbers. *)
Definition js_lt (a b : jsval) : bool :=
  match a, b with
  | JStr x, JStr y => String.ltb x y
  | _, _ => num_lt (ToNumber a) (ToNumber b)
  end.

Definition js_gt (a b : jsval) : bool := js_lt b a.

(** [a * b] *)
Definition js_mul (a b : jsval) : jsval :=
  JNum (num_mul (ToNumber a) (ToNumber b)).

(** [a + b]: concatenation as soon as one side is a string or a Date
    (whose default primitive is its string). *)
Definition js_add (a b : jsval) : jsval :=
  match a, b with
  | JStr _, _ | _, JStr _ | JDate _, _ | _, JDate _ =>
      JStr (ToString a +:+ ToString b)
  | _, _ => JNum (num_add (ToNumber a) (ToNumber b))
  end.

(** *** _generateOptions *)

Definition _generateOptions (this : Emitter) (opts : obj) : completion obj :=
  let finish (parsedOpts : obj) :=
    Ok (Object_assign3 (default ∅ (_options this)) opts parsedOpts) in
  if hasOwnProperty opts "delay" then
    match get "delay" opts with
    | JStr s =>
        match ms s with
        | Ok d => finish (<["delay" := d]> (<["schedule" := JNull]> ∅))
        | Throw e => Throw e
        end
    | JDate (Some t) =>
        finish (<["delay" := JNull]> (<["schedule" := JDate (Some t)]> ∅))
    | d =>
        finish (<["delay" := d]> (<["schedule" := JNull]> ∅))
    end
  else finish ∅.

(** *** _setupDemitQueue *)

(** The two guards at the head of [_setupDemitQueue]. *)
Definition nothing_to_defer (opts : obj) : bool :=
  isNaN (get "delay" opts) && negb (truthy (get "schedule" opts)).

Definition invalid_delay (opts : obj) : bool :=
  (negb (truthy (get "delay" opts)) || isNaN (get "delay" opts))
  && (negb (truthy (get "schedule" opts))
      || negb (instanceof_Date (get "schedule" opts))
      || toString_is_Invalid_Date (get "schedule" opts)).

(** [group] and [expiration] *)
Definition demit_group (opts : obj) : jsval :=
  if truthy (get "schedule" opts)
  then JNum (ToNumber (get "schedule" opts))
  else get "delay" opts.

Definition demit_expiration (opts : obj) (time : number) : jsval :=
  if truthy (get "schedule" opts)
  then JNum (num_sub (ToNumber (get "schedule" opts)) time)
  else get "delay" opts.

Definition demit_queueOpts (this : Emitter) (opts : obj) (expiration : jsval)
    : QueueOpts.t :=
  let queueOpts :=
    QueueOpts.mk false true true (_exchange (_remit this)) (get "event" opts) in
  if truthy (get "delay" opts)
  then queueOpts (Some expiration) (Some (js_mul expiration (JNum (Finite 2))))
  else queueOpts None (Some (js_add expiration (JNum (Finite 60000)))).

(** [`d:${this._remit._exchange}:${opts.event}:${group}`] *)
Definition demit_queue_name (exchange : string) (event group : jsval) : string :=
  "d:" +:+ exchange +:+ ":" +:+ ToString event +:+ ":" +:+ ToString group.

(** [e.message && e.message.substr(94, 28) === 'inequivalent arg \'x-expires\''] *)
Definition inequivalent_expires (e : exn) : bool :=
  negb (String.eqb (message e) EmptyString)
  && String.eqb (substring 94 28 (message e)) inequivalent_x_expires.

(** [false] is [None]. *)
Definition _setupDemitQueue (this : Emitter) (opts : obj) (time : number)
    : M (option DemitQueue.t) :=
  if nothing_to_defer opts then ret None
  else if invalid_delay opts then throw (Error invalid_delay_message)
  else
    let group := demit_group opts in
    let expiration := demit_expiration opts time in
    if js_lt expiration (JNum (Finite 1)) then ret None
    else
      let queueOpts := demit_queueOpts this opts expiration in
      let* worker := acquiring (acquire W) in
      let queue := demit_queue_name (_exchange (_remit this)) (get "event" opts) group in
      try_catch
        (call (AssertQueue worker queue queueOpts) (fun h => assertQueue W h worker queue queueOpts) ;;
         tell (Release worker) ;;
         ret (Some (DemitQueue.mk queue expiration)))
        (fun e =>
           tell (Destroy worker) ;;
           if truthy (get "schedule" opts) && inequivalent_expires e
           then ret (Some (DemitQueue.mk queue expiration))
           else throw e).

(** *** _send *)

(** The default of the first parameter: [data = null]. *)
Definition default_data (data : payload) : payload :=
  match data with
  | PVal JUndefined => PVal JNull
  | _ => data
  end.

Definition _send (amb : ambient) (this : Emitter) (data : payload) (opts : obj)
    : M SentEvent.t :=
  let data := default_data data in
  let* parsedOptions := lift (_generateOptions this opts) in
  let message :=
    Message.mk false (uuid amb) (name (_remit this)) (now amb)
      (Headers.mk (callsite amb) [] None None) true None None in
  let* message :=
    if truthy (get "priority" parsedOptions) then
      if js_gt (get "priority" parsedOptions) (JNum (Finite 10))
         || js_lt (get "priority" parsedOptions) (JNum (Finite 0))
      then throw (Error (invalid_priority_message (ToString (get "priority" parsedOptions))))
      else ret (Message.set_priority (get "priority" parsedOptions) message)
    else ret message in
  let* stringified := lift (JSON_stringify data) in
  let* parsedData :=
    match stringified with
    | None => tell (Warn unparsable_warning) ;; ret "null"
    | Some s => ret s
    end in
  tell (StartSpan ("Remit Emit: " +:+ ToString (get "event" parsedOptions)) data) ;;
  let message := Message.set_context (carrier amb) message in
  let* demitQueue := _setupDemitQueue this parsedOptions (Finite (now amb)) in
  let* worker := acquiring (acquire W) in
  try_catch
    (let* message :=
       match demitQueue with
       | Some dq =>
           let message :=
             if truthy (get "schedule" parsedOptions)
             then Message.set_scheduled (ToNumber (get "schedule" parsedOptions))
                    (DemitQueue.expiration dq) message
             else Message.set_delay (get "delay" parsedOptions) message in
           call (SendToQueue worker (DemitQueue.queue dq) parsedData message)
                (fun h => sendToQueue W h worker (DemitQueue.queue dq) parsedData message) ;;
           ret message
       | None =>
           call (Publish worker (_exchange (_remit this)) (get "event" parsedOptions)
                   parsedData message)
                (fun h => publish W h worker (_exchange (_remit this))
                            (get "event" parsedOptions) parsedData message) ;;
           ret message
       end in
     tell (Release worker) ;;
     tell FinishSpan ;;
     tell Yield ;;
     let event :=
       parseEvent message (get "event" parsedOptions) (JSON_parse parsedData) "exit" in
     call (EmitSent event) (fun h => listeners W h event) ;;
     ret event)
    (fun e => tell (Destroy worker) ;; throw e).

(** *** options and the constructor *)

(** [options(opts)]: the defaults are replaced by the normalised merge. *)
Definition options (this : Emitter) (opts : obj) : completion Emitter :=
  match _generateOptions this opts with
  | Ok o => Ok {| _remit := _remit this; _options := Some o |}
  | Throw e => Throw e
  end.

(** [new Emitter(remit, opts)] *)
Definition new_Emitter (remit : remit) (opts : emitter_arg) : completion Emitter :=
  let parsedOpts : obj :=
    match opts with
    | EventName s => <["event" := JStr s]> ∅
    | Options o => o
    end in
  if negb (truthy (get "event" parsedOpts))
  then Throw (Error no_event_message)
  else options {| _remit := remit; _options := None |} parsedOpts.

(** ** The vocabulary of the properties *)


(** A usable schedule is a valid Date. *)
Definition valid_schedule (v : jsval) : bool :=
  match v with JDate (Some _) => true | _ => false end.

(** A usable delay is a positive number of milliseconds. *)
Definition valid_positive_duration (v : jsval) : bool :=
  match v with
  | JNum (Finite z) => Z.ltb 0 z
  | JNum PInf => true
  | _ => false
  end.

(** What [_setupDemitQueue] does once both guards and the [expiration < 1]
    test are passed. *)
Definition declare_queue (this : Emitter) (opts : obj) (time : number)
    (h : list event) : completion (option DemitQueue.t) * list event :=
  let expiration := demit_expiration opts time in
  let queue :=
    demit_queue_name (_exchange (_remit this)) (get "event" opts) (demit_group opts) in
  let queueOpts := demit_queueOpts this opts expiration in
  match acquire W h with
  | Throw e => (Throw e, [AcquireFailed e])
  | Ok w =>
      match assertQueue W (h ++ [Acquired w])%list w queue queueOpts with
      | None =>
          (Ok (Some (DemitQueue.mk queue expiration)),
           [Acquired w; AssertQueue w queue queueOpts; Release w])
      | Some e =>
          (if truthy (get "schedule" opts) && inequivalent_expires e
           then Ok (Some (DemitQueue.mk queue expiration))
           else Throw e,
           [Acquired w; AssertQueue w queue queueOpts; Destroy w])
      end
  end.


Ltac run_monad :=
  unfold bind, try_catch, lift, tell, call, acquiring, ret, throw in *.

(** Split on an innermost scrutinee of the goal. *)
Ltac case_step :=
  match goal with
  | |- context [match ?x with _ => _ end] =>
      lazymatch x with
      | context [match _ with _ => _ end] => fail
      | _ => destruct x eqn:?
      end
  end; cbv beta iota.


(** The same emitter with no stored [priority]. *)
Definition without_priority (this : Emitter) : Emitter :=
  {| _remit := _remit this; _options := delete "priority" <$> _options this |}.

(** The resolved priority makes [_send] throw. *)
Definition priority_rejected (popts : obj) : bool :=
  truthy (get "priority" popts)
  && (js_gt (get "priority" popts) (JNum (Finite 10))
      || js_lt (get "priority" popts) (JNum (Finite 0))).

(** A pool that always hands out a worker, a broker that accepts every
    call and listeners that do not throw. *)
Definition cooperative : Prop :=
  (forall h e, acquire W h <> Throw e)
  /\ (forall h w q o, assertQueue W h w q o = None)
  /\ (forall h w q b m, sendToQueue W h w q b m = None)
  /\ (forall h w x k b m, publish W h w x k b m = None)
  /\ (forall h ev, listeners W h ev = None).

(** The defaults an emitter holds. *)
Definition stored (this : Emitter) : obj := default ∅ (_options this).

(** The event a constructor argument names. *)
Definition arg_event (opts : emitter_arg) : jsval :=
  match opts with
  | EventName s => JStr s
  | Options o => get "event" o
  end.

(** The ['sent'] listeners never throw. *)
Definition quiet_listeners : Prop := forall h ev, listeners W h ev = None.

(** The channel refuses every publish and every routing with [e]. *)
Definition refusing_channel (e : exn) : Prop :=
  (forall h w x k b m, publish W h w x k b m = Some e)
  /\ (forall h w q b m, sendToQueue W h w q b m = Some e).

(** The envelope an event carries, if it carries one. *)
Definition envelope_of (e : event) : option Message.t :=
  match e with
  | Publish _ _ _ _ m | SendToQueue _ _ _ m => Some m
  | EmitSent ev => Some (SentEvent.envelope ev)
  | _ => None
  end.

(** Calls on the pool or on a channel. *)
Definition pool_or_channel (e : event) : bool :=
  match e with
  | Acquired _ | Release _ | Destroy _
  | AssertQueue _ _ _ | SendToQueue _ _ _ _ | Publish _ _ _ _ _ => true
  | _ => false
  end.

(** The [parsedOpts] object [_generateOptions] builds from [opts.delay]. *)
Definition parsedOpts_of (opts : obj) : completion obj :=
  match opts !! "delay" with
  | None => Ok ∅
  | Some (JStr s) =>
      match ms s with
      | Ok d => Ok (<["delay" := d]> (<["schedule" := JNull]> ∅))
      | Throw e => Throw e
      end
  | Some (JDate (Some t)) =>
      Ok (<["delay" := JNull]> (<["schedule" := JDate (Some t)]> ∅))
  | Some d => Ok (<["delay" := d]> (<["schedule" := JNull]> ∅))
  end.

(** The worker on which a message is published or routed. *)
Definition delivery_worker (e : event) : option handle :=
  match e with
  | Publish w _ _ _ _ | SendToQueue w _ _ _ => Some w
  | _ => None
  end.

(** Unfold [_send] on resolved options and split on everything it reads. *)
Ltac send_cases Hgen unfold_resolver :=
  unfold emitted, outcome, _send; run_monad; rewrite Hgen; cbv beta iota;
  repeat first [ rewrite unfold_resolver; unfold declare_queue | case_step ].

(** Bring the histories of the goal and of the hypotheses to the form
    [h ++ [e1; e2; ...]]. *)
Ltac flatten_histories :=
  simpl in *; repeat rewrite <- app_assoc in *; simpl in *;
  rewrite ?app_nil_r in *.

(** ** Properties *)

Lemma get_assign3 (k : string) (a b c : obj) :
  get k (Object_assign3 a b c) =
  match c !! k with
  | Some v => v
  | None => match b !! k with Some v => v | None => get k a end
  end.
Proof.
  unfold get, Object_assign3.
  destruct (c !! k) as [v|] eqn:Hc.
  - by erewrite lookup_union_Some_l.
  - rewrite lookup_union_r by done.
    destruct (b !! k) as [v|] eqn:Hb.
    + by erewrite lookup_union_Some_l.
    + by rewrite lookup_union_r.
Qed.

Lemma invalid_schedule_spec (v : jsval) :
  negb (truthy v) || negb (instanceof_Date v) || toString_is_Invalid_Date v
  = negb (valid_schedule v).
Proof. destruct v as [| |[]|n|s|[t|]]; try reflexivity; simpl; by rewrite orb_true_r. Qed.

Lemma setupDemitQueue_unfold (this : Emitter) (opts : obj) (time : number)
    (h : list event) :
  _setupDemitQueue this opts time h =
  if nothing_to_defer opts then (Ok None, [])
  else if invalid_delay opts then (Throw (Error invalid_delay_message), [])
  else if js_lt (demit_expiration opts time) (JNum (Finite 1)) then (Ok None, [])
  else declare_queue this opts time h.
Proof.
  unfold _setupDemitQueue, declare_queue.
  destruct (nothing_to_defer opts); [reflexivity|].
  destruct (invalid_delay opts); [reflexivity|].
  destruct (js_lt _ _); [reflexivity|].
  unfold bind, try_catch, acquiring, call, tell, ret, throw.
  destruct (acquire W h) as [w|e]; [|reflexivity].
  destruct (assertQueue W _ w _ _) as [e|]; [|reflexivity].
  simpl. destruct (truthy (get "schedule" opts) && inequivalent_expires e); reflexivity.
Qed.


(** C2 (as amended): resolving fails with the validation error, and
    nothing is acquired or declared, when the delay is falsy or converts
    to NaN, the schedule is not a valid Date, and it is not the case that
    the delay converts to NaN while the schedule is falsy; in that last
    case (an absent, undefined, NaN or unparsable delay and no schedule)
    it returns [false] instead. *)
Theorem setupDemitQueue_validation (this : Emitter) (opts : obj) (time : number)
    (h : list event) :
  (truthy (get "delay" opts) = false \/ isNaN (get "delay" opts) = true) ->
  valid_schedule (get "schedule" opts) = false ->
  _setupDemitQueue this opts time h =
  if isNaN (get "delay" opts) && negb (truthy (get "schedule" opts))
  then (Ok None, [])
  else (Throw (Error invalid_delay_message), []).
Proof.
  intros Hd Hs. rewrite setupDemitQueue_unfold. unfold nothing_to_defer.
  destruct (isNaN (get "delay" opts) && negb (truthy (get "schedule" opts)));
    [reflexivity|].
  unfold invalid_delay. rewrite invalid_schedule_spec, Hs.
  destruct Hd as [-> | ->]; simpl; [reflexivity|by rewrite orb_true_r].
Qed.



(** The name of a resolved queue. *)
Lemma setupDemitQueue_resolved (this : Emitter) (opts : obj) (time : number)
    (h : list event) (d : DemitQueue.t) :
  outcome (_setupDemitQueue this opts time) h = Ok (Some d) ->
  DemitQueue.queue d
    = demit_queue_name (_exchange (_remit this)) (get "event" opts) (demit_group opts)
  /\ DemitQueue.expiration d = demit_expiration opts time.
Proof.
  unfold outcome. rewrite setupDemitQueue_unfold. unfold declare_queue.
  destruct (nothing_to_defer opts); [discriminate|].
  destruct (invalid_delay opts); [discriminate|].
  destruct (js_lt _ _); [discriminate|].
  destruct (acquire W h) as [w|e]; [|discriminate].
  destruct (assertQueue W _ w _ _) as [e|]; simpl.
  - destruct (truthy (get "schedule" opts) && inequivalent_expires e);
      [|discriminate].
    by intros [= <-].
  - by intros [= <-].
Qed.

Lemma demit_queue_name_inj (exchange : string) (event g1 g2 : jsval) :
  demit_queue_name exchange event g1 = demit_queue_name exchange event g2 ->
  ToString g1 = ToString g2.
Proof.
  unfold demit_queue_name. intros H.
  repeat (apply (inj (String.app _)) in H). exact H.
Qed.

(** C5: the queue name of a resolved descriptor is
    [d:<exchange>:<event>:<group>], where the group is the time value of
    the schedule when one is set and the delay otherwise.  Hence two
    resolutions by one emitter for the same event, at whatever times,
    give the same name when both delay by the same duration, and
    different names when they schedule at different valid Dates. *)
Theorem setupDemitQueue_queue_name (this : Emitter) (opts1 opts2 : obj)
    (time1 time2 : number) (h1 h2 : list event) (d1 d2 : DemitQueue.t) :
  outcome (_setupDemitQueue this opts1 time1) h1 = Ok (Some d1) ->
  outcome (_setupDemitQueue this opts2 time2) h2 = Ok (Some d2) ->
  get "event" opts1 = get "event" opts2 ->
  DemitQueue.queue d1
    = demit_queue_name (_exchange (_remit this)) (get "event" opts1) (demit_group opts1)
  /\ (truthy (get "schedule" opts1) = false ->
      truthy (get "schedule" opts2) = false ->
      get "delay" opts1 = get "delay" opts2 ->
      DemitQueue.queue d1 = DemitQueue.queue d2)
  /\ (forall t1 t2 : Z,
        get "schedule" opts1 = JDate (Some t1) ->
        get "schedule" opts2 = JDate (Some t2) ->
        t1 <> t2 ->
        DemitQueue.queue d1 <> DemitQueue.queue d2).
Proof.
  intros H1 H2 Hev.
  apply setupDemitQueue_resolved in H1 as [Hq1 _].
  apply setupDemitQueue_resolved in H2 as [Hq2 _].
  rewrite Hq1, Hq2, <- Hev. split; [reflexivity|]. split.
  - intros Hs1 Hs2 Hd. unfold demit_group. by rewrite Hs1, Hs2, Hd.
  - intros t1 t2 Hs1 Hs2 Hne Heq.
    apply demit_queue_name_inj in Heq.
    unfold demit_group in Heq. rewrite Hs1, Hs2 in Heq. simpl in Heq.
    apply (inj pretty) in Heq. contradiction.
Qed.

(** [_generateOptions] only ever rewrites [delay] and [schedule]. *)
Lemma generateOptions_other_key (this : Emitter) (opts popts : obj) (k : string) :
  k <> "delay" -> k <> "schedule" ->
  _generateOptions this opts = Ok popts ->
  get k popts = get k (Object_assign3 (default ∅ (_options this)) opts ∅).
Proof.
  intros Hd Hs Hgen.
  assert (forall parsedOpts : obj,
            parsedOpts !! k = None ->
            get k (Object_assign3 (default ∅ (_options this)) opts parsedOpts)
            = get k (Object_assign3 (default ∅ (_options this)) opts ∅))
    as Hassign.
  { intros parsedOpts Hnone. by rewrite !get_assign3, Hnone, lookup_empty. }
  unfold _generateOptions in Hgen.
  destruct (hasOwnProperty opts "delay"); [|by simplify_eq].
  destruct (get "delay" opts) as [| |b|n|s|[t|]];
    try (simplify_eq; apply Hassign; by rewrite !lookup_insert_ne).
  destruct (ms s); simplify_eq. apply Hassign. by rewrite !lookup_insert_ne.
Qed.

(** C3: when the priority of the options, merged over the stored
    defaults, is a number below 0 or above 10, [_send] throws and has
    made no call at all by then: nothing was acquired from the pool and
    the broker was not touched.  What it throws is the priority error
    (unless the duration parser already threw while the options were
    normalised). *)
Theorem send_priority_out_of_range (amb : ambient) (this : Emitter)
    (data : payload) (opts : obj) (p : number) (h : list event) :
  get "priority" (Object_assign3 (default ∅ (_options this)) opts ∅) = JNum p ->
  num_lt p (Finite 0) = true \/ num_lt (Finite 10) p = true ->
  exists e,
    _send amb this data opts h = (Throw e, [])
    /\ (forall popts, _generateOptions this opts = Ok popts ->
          e = Error (invalid_priority_message (num_to_string p))).
Proof.
  intros Hp Hout.
  assert (truthy (JNum p) = true) as Htruthy.
  { destruct Hout as [H|H]; destruct p as [| | |z]; try discriminate; try reflexivity;
      simpl in *; apply negb_true_iff, Z.eqb_neq; lia. }
  assert (js_gt (JNum p) (JNum (Finite 10)) || js_lt (JNum p) (JNum (Finite 0)) = true)
    as Hrange.
  { unfold js_gt, js_lt, ToNumber.
    destruct Hout as [-> | ->]; [by rewrite orb_true_r|reflexivity]. }
  unfold _send. run_monad.
  destruct (_generateOptions this opts) as [popts|e] eqn:Hgen.
  - rewrite (generateOptions_other_key this opts popts "priority") by done.
    rewrite Hp, Htruthy, Hrange. eexists. split; [reflexivity|done].
  - exists e. split; [reflexivity|discriminate].
Qed.



Lemma get_delete_ne (k k' : string) (o : obj) :
  k' <> k -> get k (delete k' o) = get k o.
Proof. intros Hne. unfold get. by rewrite lookup_delete_ne. Qed.

Lemma get_delete_eq (k : string) (o : obj) : get k (delete k o) = JUndefined.
Proof. unfold get. by rewrite lookup_delete_eq. Qed.

Lemma generateOptions_without_priority (this : Emitter) (opts : obj) :
  _generateOptions (without_priority this) (delete "priority" opts)
  = match _generateOptions this opts with
    | Ok r => Ok (delete "priority" r)
    | Throw e => Throw e
    end.
Proof.
  assert (forall parsedOpts : obj,
            parsedOpts !! "priority" = None ->
            Object_assign3 (default ∅ (_options (without_priority this)))
              (delete "priority" opts) parsedOpts
            = delete "priority"
                (Object_assign3 (default ∅ (_options this)) opts parsedOpts))
    as Hassign.
  { intros parsedOpts Hnone. unfold Object_assign3.
    rewrite !delete_union, (delete_id parsedOpts) by done.
    do 2 f_equal. simpl. destruct (_options this); simpl; [done|].
    by rewrite delete_empty. }
  unfold _generateOptions, hasOwnProperty.
  rewrite lookup_delete_ne, get_delete_ne by done.
  destruct (bool_decide _); [|by rewrite Hassign].
  destruct (get "delay" opts) as [| |b|n|s|[t|]]; try (by rewrite Hassign).
  destruct (ms s); [by rewrite Hassign|done].
Qed.

Lemma setupDemitQueue_without_priority (this : Emitter) (o : obj) (time : number) :
  _setupDemitQueue (without_priority this) (delete "priority" o) time
  = _setupDemitQueue this o time.
Proof.
  unfold _setupDemitQueue, nothing_to_defer, invalid_delay, demit_group,
    demit_expiration, demit_queueOpts.
  rewrite !get_delete_ne by done. reflexivity.
Qed.

(** C10: when the resolved priority is exactly 0, [_send] behaves as the
    same call on an emitter and options that mention no priority at all:
    same outcome, same calls, same envelopes.  No envelope it publishes
    or routes, and no event it returns, carries a [priority] field. *)
Theorem send_priority_zero (amb : ambient) (this : Emitter) (data : payload)
    (opts popts : obj) (h : list event) :
  _generateOptions this opts = Ok popts ->
  get "priority" popts = JNum (Finite 0) ->
  _send amb this data opts h
    = _send amb (without_priority this) data (delete "priority" opts) h
  /\ (forall e, In e (emitted (_send amb this data opts) h) ->
        match e with
        | Publish _ _ _ _ m | SendToQueue _ _ _ m => Message.priority m = None
        | EmitSent ev => Message.priority (SentEvent.envelope ev) = None
        | _ => True
        end)
  /\ (forall ev, outcome (_send amb this data opts) h = Ok ev ->
        Message.priority (SentEvent.envelope ev) = None).
Proof.
  intros Hgen Hp. split; [|split].
  - unfold _send. run_monad.
    rewrite generateOptions_without_priority, Hgen.
    rewrite setupDemitQueue_without_priority.
    rewrite get_delete_eq, !get_delete_ne, Hp by done. reflexivity.
  - unfold emitted, _send. run_monad. rewrite Hgen, Hp. cbv beta iota.
    change (truthy (JNum (Finite 0))) with false. cbv beta iota.
    repeat first [ rewrite setupDemitQueue_unfold; unfold declare_queue
                 | case_step ];
      simplify_eq; simpl;
      intros ? He; repeat (destruct He as [<-|He]; [done|]); by destruct He.
  - unfold outcome, _send. run_monad. rewrite Hgen, Hp. cbv beta iota.
    change (truthy (JNum (Finite 0))) with false. cbv beta iota.
    repeat case_step; simplify_eq; simpl; intros ? Hev; by simplify_eq.
Qed.

(** C4 (as amended): for a payload other than [undefined] on which
    [JSON.stringify] gives [undefined] (a function, for instance), and
    options that are accepted, [_send] first warns on the console, then
    goes on with the body ['null']: every publish and every routing to a
    queue carries that body, and the event it emits carries
    [JSON.parse('null')].  Whenever the send resolves, a publish or a
    routing with the body ['null'] was made on a worker, and the event
    returned carries [JSON.parse('null')]; and with a cooperative pool,
    broker and listeners and options that pass the validation of the
    delay, the send does resolve.  (The payload [undefined] itself never
    reaches [JSON.stringify]: the default [data = null] replaces it, so
    the send behaves as for [null] and nothing is warned.) *)
Theorem send_unserializable (amb : ambient) (this : Emitter) (data : payload)
    (opts popts : obj) (h : list event) :
  data <> PVal JUndefined ->
  JSON_stringify data = Ok None ->
  _generateOptions this opts = Ok popts ->
  priority_rejected popts = false ->
  (exists rest, emitted (_send amb this data opts) h = Warn unparsable_warning :: rest)
  /\ (forall e, In e (emitted (_send amb this data opts) h) ->
        match e with
        | Publish _ _ _ body _ | SendToQueue _ _ body _ => body = "null"
        | EmitSent ev => SentEvent.data ev = JSON_parse "null"
        | _ => True
        end)
  /\ (forall ev, outcome (_send amb this data opts) h = Ok ev ->
        SentEvent.data ev = JSON_parse "null"
        /\ exists w,
             (exists x k m,
                 In (Publish w x k "null" m) (emitted (_send amb this data opts) h))
             \/ (exists q m,
                    In (SendToQueue w q "null" m) (emitted (_send amb this data opts) h)))
  /\ (cooperative ->
      nothing_to_defer popts = true \/ invalid_delay popts = false ->
      exists ev, outcome (_send amb this data opts) h = Ok ev)
  /\ _send amb this (PVal JUndefined) opts h = _send amb this (PVal JNull) opts h.
Proof.
  intros Hdefined Hstringify Hgen Hprio.
  assert (JSON_stringify (default_data data) = Ok None) as Hjson.
  { destruct data as [[| | | | |]| |]; try exact Hstringify. by destruct Hdefined. }
  assert (exists m0,
    (if truthy (get "priority" popts)
     then
       if js_gt (get "priority" popts) (JNum (Finite 10))
          || js_lt (get "priority" popts) (JNum (Finite 0))
       then throw (Error (invalid_priority_message (ToString (get "priority" popts))))
       else ret (Message.set_priority (get "priority" popts)
                   (Message.mk false (uuid amb) (name (_remit this)) (now amb)
                      (Headers.mk (callsite amb) [] None None) true None None))
     else ret (Message.mk false (uuid amb) (name (_remit this)) (now amb)
                 (Headers.mk (callsite amb) [] None None) true None None))
    = ret m0) as [m0 Hm0].
  { unfold priority_rejected in Hprio.
    destruct (truthy (get "priority" popts)); [|by eexists].
    rewrite andb_true_l in Hprio. rewrite Hprio. by eexists. }
  assert (_send amb this (PVal JUndefined) opts h = _send amb this (PVal JNull) opts h)
    as Hundefined by reflexivity.
  unfold emitted, outcome.
  remember (_send amb this data opts h) as r eqn:Hr.
  unfold _send in Hr. run_monad. rewrite Hgen in Hr. cbv beta iota in Hr.
  rewrite Hm0, Hjson in Hr. cbv beta iota in Hr. subst r.
  clear Hm0 Hprio Hgen Hjson Hstringify Hdefined.
  split; [|split; [|split; [|split; [|exact Hundefined]]]]; clear Hundefined.
  - repeat case_step; simpl; by eexists.
  - repeat first [ rewrite setupDemitQueue_unfold; unfold declare_queue
                 | case_step ];
      simplify_eq; simpl;
      intros ? He; repeat (destruct He as [<-|He]; [done|]); by destruct He.
  - repeat first [ rewrite setupDemitQueue_unfold; unfold declare_queue
                 | case_step ];
      simplify_eq; simpl; intros ? Hev; simplify_eq;
      (split; [reflexivity|]); eexists;
      first
        [ left; do 3 eexists; solve [repeat first [left; reflexivity | right]]
        | right; do 2 eexists; solve [repeat first [left; reflexivity | right]] ].
  - intros (Hacq & Hassert & Hroute & Hpublish & Hlisten) Hdelay.
    repeat first
      [ rewrite setupDemitQueue_unfold; unfold declare_queue
      | rewrite Hassert | rewrite Hroute | rewrite Hpublish | rewrite Hlisten
      | case_step ];
      simplify_eq; simpl; try (by eexists);
      try (by destruct Hdelay; congruence);
      exfalso; eapply Hacq; eassumption.
Qed.

(** On every path of [_setupDemitQueue] the worker it acquired is handed
    back exactly once: released after a successful declaration, destroyed
    after a failed one. *)
Lemma setupDemitQueue_settles_worker (this : Emitter) (opts : obj) (time : number)
    (h : list event) :
  let t := emitted (_setupDemitQueue this opts time) h in
  t = [] \/ (exists e, t = [AcquireFailed e])
  \/ (exists w q qo, t = [Acquired w; AssertQueue w q qo; Release w]
                   \/ t = [Acquired w; AssertQueue w q qo; Destroy w]).
Proof.
  unfold emitted. rewrite setupDemitQueue_unfold. unfold declare_queue.
  destruct (nothing_to_defer opts); [by left|].
  destruct (invalid_delay opts); [by left|].
  destruct (js_lt _ _); [by left|].
  destruct (acquire W h) as [w|e]; [|right; left; by exists e].
  right. right. destruct (assertQueue W _ w _ _); simpl; eauto 10.
Qed.

(** ** Further properties of the option handling *)

Lemma generateOptions_parsedOpts (this : Emitter) (opts : obj) :
  _generateOptions this opts
  = match parsedOpts_of opts with
    | Ok p => Ok (Object_assign3 (stored this) opts p)
    | Throw e => Throw e
    end.
Proof.
  unfold _generateOptions, parsedOpts_of, hasOwnProperty, get, stored.
  case_bool_decide as Hown.
  - destruct Hown as [v ->]. simpl.
    destruct v as [| |b|n|s|[t|]]; try reflexivity. by destruct (ms s).
  - destruct (opts !! "delay") as [v|]; [|reflexivity].
    exfalso. apply Hown. by exists v.
Qed.

Lemma parsedOpts_of_keys (opts p : obj) (k : string) :
  parsedOpts_of opts = Ok p ->
  (k <> "delay" -> k <> "schedule" -> p !! k = None)
  /\ (opts !! "delay" = None -> p = ∅)
  /\ (is_Some (opts !! "delay") -> is_Some (p !! "delay") /\ is_Some (p !! "schedule")).
Proof.
  unfold parsedOpts_of. intros Hp.
  destruct (opts !! "delay") as [v|] eqn:Hd.
  - assert (exists d c, p = <["delay" := d]> (<["schedule" := c]> ∅)) as (d & c & ->).
    { destruct v as [| |b|n|s|[t|]]; simplify_eq; eauto.
      destruct (ms s); simplify_eq; eauto. }
    split; [|split].
    + intros. by rewrite !lookup_insert_ne.
    + discriminate.
    + intros _. rewrite lookup_insert_eq, lookup_insert_ne, lookup_insert_eq by done.
      eauto.
  - simplify_eq. split; [|split]; [done|done|]. by intros [? ?].
Qed.

(** X1: [_generateOptions] throws exactly when [opts.delay] is a string on
    which the duration parser throws, and then with the parser's error. *)
Theorem generateOptions_throws (this : Emitter) (opts : obj) (e : exn) :
  _generateOptions this opts = Throw e
  <-> exists s, opts !! "delay" = Some (JStr s) /\ ms s = Throw e.
Proof.
  rewrite generateOptions_parsedOpts. unfold parsedOpts_of. split.
  - destruct (opts !! "delay") as [[| |b|n|s|[t|]]|]; try discriminate.
    destruct (ms s) eqn:Hms; [discriminate|]. intros [= ->]. eauto.
  - intros (s & -> & ->). reflexivity.
Qed.

(** X2: apart from what the normalisation of [delay] writes, the result
    of [_generateOptions] is the input merged over the stored defaults:
    for every key other than [delay] and [schedule], and for every key at
    all when the input has no [delay] key, the result holds the input's
    value if the input has the key, and the default's otherwise. *)
Theorem generateOptions_merges (this : Emitter) (opts r : obj) (k : string) :
  _generateOptions this opts = Ok r ->
  (k <> "delay" /\ k <> "schedule") \/ opts !! "delay" = None ->
  r !! k = match opts !! k with
           | Some v => Some v
           | None => stored this !! k
           end.
Proof.
  rewrite generateOptions_parsedOpts.
  destruct (parsedOpts_of opts) as [p|] eqn:Hp; [|discriminate].
  intros [= <-] Hk.
  destruct (parsedOpts_of_keys opts p k Hp) as (Hother & Hnone & _).
  assert (p !! k = None) as Hpk.
  { destruct Hk as [[? ?]|Hd]; [by apply Hother|]. by rewrite (Hnone Hd). }
  unfold Object_assign3. rewrite lookup_union_r by done.
  destruct (opts !! k) as [v|] eqn:Hok.
  - by erewrite lookup_union_Some_l.
  - by rewrite lookup_union_r.
Qed.

(** X3: an Invalid Date passed as [delay] is neither scheduled nor
    rejected: normalisation keeps it as the delay with a [null] schedule,
    and the resolver then returns [false] without a call, so the message
    is sent at once. *)
Theorem invalid_date_is_sent_at_once (this : Emitter) (opts : obj) (time : number)
    (h : list event) :
  opts !! "delay" = Some (JDate None) ->
  exists popts,
    _generateOptions this opts = Ok popts
    /\ get "delay" popts = JDate None
    /\ get "schedule" popts = JNull
    /\ _setupDemitQueue this popts time h = (Ok None, []).
Proof.
  intros Hd. rewrite generateOptions_parsedOpts. unfold parsedOpts_of. rewrite Hd.
  eexists. split; [reflexivity|].
  assert (get "delay" (Object_assign3 (stored this) opts
                         (<["delay" := JDate None]> (<["schedule" := JNull]> ∅)))
          = JDate None) as Hdelay by by rewrite get_assign3.
  assert (get "schedule" (Object_assign3 (stored this) opts
                            (<["delay" := JDate None]> (<["schedule" := JNull]> ∅)))
          = JNull) as Hschedule by by rewrite get_assign3.
  split; [exact Hdelay|]. split; [exact Hschedule|].
  rewrite setupDemitQueue_unfold. unfold nothing_to_defer.
  by rewrite Hdelay, Hschedule.
Qed.

(** X4: the constructor throws when the event it is given is falsy
    (nothing, [''], [null], [0]), before it looks at any other option; and
    an emitter it returns belongs to the given remit and holds, as default
    event, the truthy event it was given. *)
Theorem new_Emitter_event (r : remit) (arg : emitter_arg) :
  (truthy (arg_event arg) = false ->
   new_Emitter r arg = Throw (Error no_event_message))
  /\ (forall this, new_Emitter r arg = Ok this ->
        _remit this = r
        /\ is_Some (_options this)
        /\ get "event" (stored this) = arg_event arg
        /\ truthy (arg_event arg) = true).
Proof.
  assert (get "event" match arg with
                      | EventName s => <["event" := JStr s]> ∅
                      | Options o => o
                      end = arg_event arg) as Hev.
  { destruct arg as [s|o]; [|reflexivity]. unfold get. by rewrite lookup_insert_eq. }
  unfold new_Emitter. rewrite Hev. split.
  - by intros ->.
  - intros this. destruct (truthy (arg_event arg)); [|discriminate]. simpl.
    unfold options.
    destruct (_generateOptions _ _) as [o|] eqn:Hgen; [|discriminate].
    intros [= <-]. simpl. repeat split; [by eauto|].
    unfold stored. simpl.
    rewrite (generateOptions_other_key _ _ o "event") by done.
    rewrite get_assign3, lookup_empty. simpl. unfold get in Hev |- *.
    destruct (_ !! "event"); [exact Hev|]. by rewrite lookup_empty.
Qed.

(** X5: creating an emitter by a non-empty event name never fails, and
    the defaults it stores are exactly that event. *)
Theorem new_Emitter_by_name (r : remit) (s : string) :
  s <> EmptyString ->
  new_Emitter r (EventName s)
  = Ok {| _remit := r; _options := Some (<["event" := JStr s]> ∅) |}.
Proof.
  intros Hs. unfold new_Emitter, get. rewrite lookup_insert_eq. simpl.
  apply String.eqb_neq in Hs. rewrite Hs. simpl.
  unfold options. rewrite generateOptions_parsedOpts. unfold parsedOpts_of.
  rewrite lookup_insert_ne, lookup_empty by done.
  unfold Object_assign3, stored. simpl.
  by rewrite (left_id_L ∅ (∪)), (right_id_L ∅ (∪)).
Qed.

Lemma lookup_assign3 (k : string) (a b c : obj) :
  Object_assign3 a b c !! k
  = match c !! k with
    | Some v => Some v
    | None => match b !! k with Some v => Some v | None => a !! k end
    end.
Proof.
  unfold Object_assign3.
  destruct (c !! k) as [v|] eqn:Hc.
  - by erewrite lookup_union_Some_l.
  - rewrite lookup_union_r by done.
    destruct (b !! k) as [v|] eqn:Hb.
    + by erewrite lookup_union_Some_l.
    + by rewrite lookup_union_r.
Qed.

Lemma lookup_union_first (k : string) (a b : obj) :
  (a ∪ b) !! k = match a !! k with Some v => Some v | None => b !! k end.
Proof.
  destruct (a !! k) as [v|] eqn:Ha.
  - by erewrite lookup_union_Some_l.
  - by rewrite lookup_union_r.
Qed.

Lemma options_then_generateOptions (this this1 : Emitter) (o1 o2 : obj) :
  options this o1 = Ok this1 ->
  o2 !! "schedule" = None \/ is_Some (o2 !! "delay") ->
  _generateOptions this1 o2 = _generateOptions this (o2 ∪ o1).
Proof.
  unfold options. rewrite (generateOptions_parsedOpts this o1).
  destruct (parsedOpts_of o1) as [p1|] eqn:Hp1; [|discriminate].
  intros [= <-] Hcond. rewrite !generateOptions_parsedOpts.
  unfold stored at 1. simpl.
  destruct (o2 !! "delay") as [v|] eqn:Hd2.
  - assert (parsedOpts_of (o2 ∪ o1) = parsedOpts_of o2) as ->.
    { unfold parsedOpts_of. by rewrite lookup_union_first, Hd2. }
    destruct (parsedOpts_of o2) as [p2|] eqn:Hp2; [|reflexivity].
    f_equal. apply map_eq. intros k.
    destruct (parsedOpts_of_keys o2 p2 k Hp2) as (Hother2 & _ & Hboth2).
    destruct (parsedOpts_of_keys o1 p1 k Hp1) as (Hother1 & _ & _).
    destruct Hboth2 as [[d Hd] [c Hc]]; [by rewrite Hd2; eauto|].
    rewrite !lookup_assign3, lookup_union_first.
    destruct (decide (k = "delay")) as [->|Hkd]; [by rewrite Hd|].
    destruct (decide (k = "schedule")) as [->|Hks]; [by rewrite Hc|].
    rewrite (Hother1 Hkd Hks).
    by destruct (p2 !! k), (o2 !! k), (o1 !! k).
  - assert (parsedOpts_of (o2 ∪ o1) = Ok p1) as ->.
    { rewrite <- Hp1. unfold parsedOpts_of. by rewrite lookup_union_first, Hd2. }
    assert (parsedOpts_of o2 = Ok ∅) as -> by (unfold parsedOpts_of; by rewrite Hd2).
    f_equal. apply map_eq. intros k.
    destruct (parsedOpts_of_keys o1 p1 k Hp1) as (Hother1 & _ & _).
    rewrite !lookup_assign3, lookup_union_first, lookup_empty.
    destruct (p1 !! k) as [x|] eqn:Hp1k; [|by destruct (o2 !! k), (o1 !! k)].
    assert (o2 !! k = None) as ->; [|reflexivity].
    destruct (decide (k = "delay")) as [->|Hkd]; [exact Hd2|].
    destruct (decide (k = "schedule")) as [->|Hks].
    + destruct Hcond as [H|[? H]]; [exact H|discriminate].
    + specialize (Hother1 Hkd Hks). congruence.
Qed.

(** X6: storing defaults with [options(o1)] and then sending with the
    per-call options [o2] behaves, call for call, as sending on the
    original emitter with [o2] merged over [o1], provided [o2] does not
    pass a [schedule] key without a [delay] key. *)
Theorem options_then_send (amb : ambient) (this this1 : Emitter) (data : payload)
    (o1 o2 : obj) (h : list event) :
  options this o1 = Ok this1 ->
  o2 !! "schedule" = None \/ is_Some (o2 !! "delay") ->
  _send amb this1 data o2 h = _send amb this data (o2 ∪ o1) h.
Proof.
  intros Hopt Hcond. unfold _send.
  rewrite (options_then_generateOptions this this1 o1 o2 Hopt Hcond).
  unfold options in Hopt.
  destruct (_generateOptions this o1); [|discriminate].
  injection Hopt as <-. reflexivity.
Qed.


(** X18: [options] does not repeat the constructor's check: when it
    returns, the emitter keeps its remit, and its default event is the
    event of the new options when they have an [event] key, whatever its
    value (a falsy one too), and the previous default event otherwise. *)
Theorem options_event (this this' : Emitter) (opts : obj) :
  options this opts = Ok this' ->
  _remit this' = _remit this
  /\ get "event" (stored this')
     = match opts !! "event" with
       | Some v => v
       | None => get "event" (stored this)
       end.
Proof.
  unfold options.
  destruct (_generateOptions this opts) as [o|] eqn:Hgen; [|discriminate].
  intros [= <-]. split; [reflexivity|].
  unfold stored at 1. simpl.
  rewrite (generateOptions_other_key this opts o "event") by done.
  by rewrite get_assign3, lookup_empty.
Qed.

(** ** The pool discipline *)

(** X7: whatever the pool and the broker answer, the calls of
    [_setupDemitQueue] keep the pool discipline: the declaration is made
    on the worker acquired, which is released when the broker accepted the
    declaration and destroyed when it refused it, exactly once, and no
    worker is held when the resolver returns or throws. *)
Theorem setupDemitQueue_disciplined (this : Emitter) (opts : obj) (time : number)
    (h : list event) :
  disciplined W h None (emitted (_setupDemitQueue this opts time) h) = true.
Proof.
  unfold emitted. rewrite setupDemitQueue_unfold. unfold declare_queue.
  repeat case_step; simpl;
    repeat match goal with
           | H : assertQueue W _ _ _ _ = _ |- _ => rewrite H; clear H
           end;
    by rewrite ?Nat.eqb_refl.
Qed.

(** X8: when the ['sent'] listeners do not throw (and nothing but the
    pool, the channel and the listeners can), the calls of [_send] keep
    the pool discipline on every path: at most one worker is held at a
    time, each channel call is made on the worker held, and every worker
    acquired is released when the channel accepted the call made on it and
    destroyed when it refused it, exactly once. *)
Theorem send_disciplined (amb : ambient) (this : Emitter) (data : payload)
    (opts : obj) (h : list event) :
  quiet_listeners ->
  disciplined W h None (emitted (_send amb this data opts) h) = true.
Proof.
  intros Hquiet.
  destruct (_generateOptions this opts) as [popts|e0] eqn:Hgen;
    send_cases Hgen setupDemitQueue_unfold;
    try match goal with
        | H : listeners W ?a ?b = Some _ |- _ => by rewrite (Hquiet a b) in H
        end;
    clear Hquiet; flatten_histories;
    repeat match goal with
           | H : assertQueue W _ _ _ _ = _ |- _ => rewrite H; clear H
           | H : sendToQueue W _ _ _ _ _ = _ |- _ => rewrite H; clear H
           | H : publish W _ _ _ _ _ _ = _ |- _ => rewrite H; clear H
           end;
    simpl; by rewrite ?Nat.eqb_refl.
Qed.

(** ** Outcomes of a send *)

Lemma ends_with_rev (t suffix : list event) :
  (exists r, rev t = (rev suffix ++ r)%list) ->
  exists pre, t = (pre ++ suffix)%list.
Proof.
  intros [r Hr]. exists (rev r).
  rewrite <- (rev_involutive t), Hr, rev_app_distr. by rewrite rev_involutive.
Qed.

Lemma ends_with_release (t : list event) (ev : SentEvent.t) :
  (exists w r, rev t = EmitSent ev :: Yield :: FinishSpan :: Release w :: r) ->
  exists pre w, t = (pre ++ [Release w; FinishSpan; Yield; EmitSent ev])%list.
Proof.
  intros (w & r & Hr).
  destruct (ends_with_rev t [Release w; FinishSpan; Yield; EmitSent ev]) as [pre Hpre];
    [by exists r|by exists pre, w].
Qed.

(** X9: when [_send] resolves, the event it returns is the one it handed
    to the ['sent'] listeners, as its last call, after it released the
    worker, finished the span and yielded once; that event carries the
    resolved event name as routing key and the flow type ['exit']. *)
Theorem send_returns_emitted_event (amb : ambient) (this : Emitter)
    (data : payload) (opts popts : obj) (h : list event) (ev : SentEvent.t) :
  _generateOptions this opts = Ok popts ->
  outcome (_send amb this data opts) h = Ok ev ->
  SentEvent.routingKey ev = get "event" popts
  /\ SentEvent.flowType ev = "exit"
  /\ exists pre w,
       emitted (_send amb this data opts) h
       = (pre ++ [Release w; FinishSpan; Yield; EmitSent ev])%list.
Proof.
  intros Hgen. revert ev.
  send_cases Hgen setupDemitQueue_unfold; simpl; intros ev' Hev; simplify_eq;
    (split; [reflexivity|]); (split; [reflexivity|]);
    apply ends_with_release; simpl; do 2 eexists; reflexivity.
Qed.

(** X10: when the ['sent'] listeners do not throw and [_send] rejects,
    it has neither finished the span it may have started nor emitted a
    ['sent'] event. *)
Theorem send_failure_leaves_span_open (amb : ambient) (this : Emitter)
    (data : payload) (opts : obj) (h : list event) (e : exn) :
  quiet_listeners ->
  outcome (_send amb this data opts) h = Throw e ->
  forall ev, In ev (emitted (_send amb this data opts) h) ->
    match ev with
    | FinishSpan | EmitSent _ => False
    | _ => True
    end.
Proof.
  intros Hquiet. revert e.
  destruct (_generateOptions this opts) as [popts|e0] eqn:Hgen;
    send_cases Hgen setupDemitQueue_unfold; simpl; intros e' He';
    try discriminate;
    try match goal with
        | H : listeners W ?a ?b = Some _ |- _ => by rewrite (Hquiet a b) in H
        end;
    intros ev Hin; repeat (destruct Hin as [<-|Hin]; [done|]); by destruct Hin.
Qed.

(** X11: when [JSON.stringify] throws on the payload (and the options
    are accepted), [_send] rejects with that error before it makes any
    call: no span, no worker, no queue, no publish. *)
Theorem send_stringify_throws (amb : ambient) (this : Emitter) (data : payload)
    (opts popts : obj) (h : list event) (e : exn) :
  _generateOptions this opts = Ok popts ->
  priority_rejected popts = false ->
  JSON_stringify (default_data data) = Throw e ->
  _send amb this data opts h = (Throw e, []).
Proof.
  intros Hgen Hprio Hjson. unfold priority_rejected in Hprio.
  unfold _send. run_monad. rewrite Hgen, Hjson. cbv beta iota.
  destruct (truthy (get "priority" popts)); [|reflexivity].
  rewrite andb_true_l in Hprio. by rewrite Hprio.
Qed.

(** ** Envelopes *)

Lemma send_priority_kept (amb : ambient) (this : Emitter) (data : payload)
    (opts popts : obj) (h : list event) :
  _generateOptions this opts = Ok popts ->
  truthy (get "priority" popts) = true ->
  priority_rejected popts = false ->
  forall e m, In e (emitted (_send amb this data opts) h) ->
    envelope_of e = Some m ->
    Message.priority m = Some (get "priority" popts).
Proof.
  intros Hgen Htruthy Hprio. unfold priority_rejected in Hprio.
  rewrite Htruthy, andb_true_l in Hprio.
  unfold emitted.
  remember (_send amb this data opts h) as r eqn:Hr.
  unfold _send in Hr. run_monad. rewrite Hgen, Htruthy, Hprio in Hr.
  cbv beta iota in Hr. subst r.
  repeat first [ rewrite setupDemitQueue_unfold; unfold declare_queue | case_step ];
    simpl; intros ? ? Hin Henv;
    repeat (destruct Hin as [<-|Hin]; [simpl in Henv; simplify_eq; reflexivity|]);
    by destruct Hin.
Qed.

(** X12: a numeric priority from 1 to 10 is accepted and is attached,
    unchanged, to every envelope that is published, routed to a queue or
    handed to the listeners. *)
Theorem send_priority_attached (amb : ambient) (this : Emitter) (data : payload)
    (opts popts : obj) (z : Z) (h : list event) :
  _generateOptions this opts = Ok popts ->
  get "priority" popts = JNum (Finite z) ->
  1 <= z <= 10 ->
  priority_rejected popts = false
  /\ forall e m, In e (emitted (_send amb this data opts) h) ->
       envelope_of e = Some m ->
       Message.priority m = Some (JNum (Finite z)).
Proof.
  intros Hgen Hp Hz.
  assert (truthy (get "priority" popts) = true) as Htruthy.
  { rewrite Hp. simpl. apply negb_true_iff, Z.eqb_neq. lia. }
  assert (priority_rejected popts = false) as Hprio.
  { unfold priority_rejected, js_gt, js_lt. rewrite Hp. simpl.
    apply andb_false_intro2, orb_false_intro; apply Z.ltb_ge; lia. }
  split; [exact Hprio|]. rewrite <- Hp.
  by apply send_priority_kept.
Qed.

(** X13: a truthy priority that converts to NaN (a word such as
    ['high'], for instance) is not rejected by the range check: both
    comparisons are false, and the value is attached as it is to every
    envelope. *)
Theorem send_priority_not_a_number (amb : ambient) (this : Emitter)
    (data : payload) (opts popts : obj) (h : list event) :
  _generateOptions this opts = Ok popts ->
  truthy (get "priority" popts) = true ->
  ToNumber (get "priority" popts) = NaN ->
  priority_rejected popts = false
  /\ forall e m, In e (emitted (_send amb this data opts) h) ->
       envelope_of e = Some m ->
       Message.priority m = Some (get "priority" popts).
Proof.
  intros Hgen Htruthy Hnan.
  assert (priority_rejected popts = false) as Hprio.
  { unfold priority_rejected, js_gt, js_lt.
    destruct (get "priority" popts) as [| |b|n|s|[t|]]; simpl in *;
      rewrite ?Hnan; try discriminate; simpl; by rewrite ?andb_false_r. }
  split; [exact Hprio|]. by apply send_priority_kept.
Qed.

(** X14: the envelope routed to an auxiliary queue goes to the queue
    named after the exchange, the event and the group.  When a schedule
    is set it carries [headers.scheduled], the schedule's time value, and
    the per-message [expiration] (schedule minus now), and no
    [headers.delay]; otherwise it carries the delay in [headers.delay] and
    neither of the other two. *)
Theorem send_deferred_envelope (amb : ambient) (this : Emitter) (data : payload)
    (opts popts : obj) (h : list event) (w : handle) (q body : string)
    (m : Message.t) :
  _generateOptions this opts = Ok popts ->
  In (SendToQueue w q body m) (emitted (_send amb this data opts) h) ->
  q = demit_queue_name (_exchange (_remit this)) (get "event" popts) (demit_group popts)
  /\ (truthy (get "schedule" popts) = true ->
      Headers.scheduled (Message.headers m) = Some (ToNumber (get "schedule" popts))
      /\ Message.expiration m = Some (demit_expiration popts (Finite (now amb)))
      /\ Headers.delay (Message.headers m) = None)
  /\ (truthy (get "schedule" popts) = false ->
      Headers.delay (Message.headers m) = Some (get "delay" popts)
      /\ Headers.scheduled (Message.headers m) = None
      /\ Message.expiration m = None).
Proof.
  intros Hgen.
  send_cases Hgen setupDemitQueue_unfold; simpl; intros Hin;
    repeat (destruct Hin as [Hin|Hin]; [try discriminate|]); try (by destruct Hin);
    simplify_eq; simpl; (split; [reflexivity|]);
    split; intros; try congruence; done.
Qed.

(** X15: a direct publish goes to the emitter's exchange under the event
    of the call when the options of the call have an [event] key (the
    per-call event overrides the emitter's), and under the emitter's
    default event otherwise. *)
Theorem send_routing_key (amb : ambient) (this : Emitter) (data : payload)
    (opts : obj) (h : list event) (w : handle) (x : string) (k : jsval)
    (body : string) (m : Message.t) :
  In (Publish w x k body m) (emitted (_send amb this data opts) h) ->
  x = _exchange (_remit this)
  /\ k = match opts !! "event" with
         | Some v => v
         | None => get "event" (stored this)
         end.
Proof.
  destruct (_generateOptions this opts) as [popts|e0] eqn:Hgen.
  - pose proof (generateOptions_other_key this opts popts "event") as Hev.
    rewrite get_assign3, lookup_empty in Hev. fold (stored this) in Hev.
    rewrite <- Hev by done. clear Hev.
    send_cases Hgen setupDemitQueue_unfold; simpl; intros Hin;
      repeat (destruct Hin as [Hin|Hin]; [try discriminate|]); try (by destruct Hin);
      by simplify_eq.
  - send_cases Hgen setupDemitQueue_unfold; simpl; intros [].
Qed.

(** ** Failures of the pool and of the channel *)

(** X16: when the channel refuses the publish or the routing with [e],
    [_send] destroys the worker it used, as its last call, and rejects
    with [e] itself; the worker is not released and no ['sent'] event
    follows. *)
Theorem send_refused (amb : ambient) (this : Emitter) (data : payload)
    (opts : obj) (h : list event) (e : exn) (ev : event) (w : handle) :
  refusing_channel e ->
  In ev (emitted (_send amb this data opts) h) ->
  delivery_worker ev = Some w ->
  outcome (_send amb this data opts) h = Throw e
  /\ exists pre, emitted (_send amb this data opts) h = (pre ++ [ev; Destroy w])%list.
Proof.
  intros [Hpublish Hroute].
  destruct (_generateOptions this opts) as [popts|e0] eqn:Hgen;
    unfold emitted, outcome, _send; run_monad; rewrite Hgen; cbv beta iota;
    repeat first [ rewrite setupDemitQueue_unfold; unfold declare_queue
                 | rewrite Hpublish | rewrite Hroute
                 | case_step ];
    simpl; intros Hin Hw;
    repeat (destruct Hin as [<-|Hin]; [simpl in Hw; try discriminate|]);
    try (by destruct Hin);
    simplify_eq; (split; [reflexivity|]);
    apply ends_with_rev; simpl; eexists; reflexivity.
Qed.

(** X17: when the pool rejects every acquisition, [_send] rejects and
    makes no call on a worker: nothing is declared, published, routed,
    released or destroyed. *)
Theorem send_without_worker (amb : ambient) (this : Emitter) (data : payload)
    (opts : obj) (h : list event) (e : exn) :
  (forall h', acquire W h' = Throw e) ->
  (exists e', outcome (_send amb this data opts) h = Throw e')
  /\ forall ev, In ev (emitted (_send amb this data opts) h) ->
       pool_or_channel ev = false.
Proof.
  intros Hacquire.
  destruct (_generateOptions this opts) as [popts|e0] eqn:Hgen;
    unfold emitted, outcome, _send; run_monad; rewrite Hgen; cbv beta iota;
    repeat first [ rewrite setupDemitQueue_unfold; unfold declare_queue
                 | rewrite Hacquire
                 | case_step ];
    simpl; (split; [by eexists|]);
    intros ev Hin; repeat (destruct Hin as [<-|Hin]; [reflexivity|]); by destruct Hin.
Qed.

End Emitter.

(** * The properties on the concrete runtime *)



(** C2, counterexample: [{delay: 'soon'}].  The duration parser gives
    [undefined] for it, so the resolved options carry a [delay] that is no
    duration and a [schedule] of [null]; the resolver returns [false]
    without a call, and the message is sent at once. *)
Lemma setupDemitQueue_unparsable_delay_counterexample :
  _generateOptions Sample.ms Sample.emitter Sample.delay_soon
    = Ok Sample.delay_soon_resolved
  /\ hasOwnProperty Sample.delay_soon_resolved "delay" = true
  /\ valid_positive_duration (get "delay" Sample.delay_soon_resolved) = false
  /\ valid_schedule (get "schedule" Sample.delay_soon_resolved) = false
  /\ _setupDemitQueue Sample.StringToNumber Sample.Date_toString Sample.calm
       Sample.emitter Sample.delay_soon_resolved (Finite (now Sample.amb)) []
     = (Ok None, []).
Proof. repeat split; vm_compute; reflexivity. Qed.

Lemma setupDemitQueue_validation_witness :
  _setupDemitQueue Sample.StringToNumber Sample.Date_toString Sample.calm
    Sample.emitter Sample.delay_zero_resolved (Finite (now Sample.amb)) []
  = (Throw (Error invalid_delay_message), []).
Proof.
  rewrite (setupDemitQueue_validation Sample.StringToNumber Sample.Date_toString
             Sample.calm Sample.emitter Sample.delay_zero_resolved);
    [ vm_compute; reflexivity
    | left; vm_compute; reflexivity
    | vm_compute; reflexivity ].
Defined.

Lemma send_priority_out_of_range_witness :
  exists e,
    _send Sample.StringToNumber Sample.Date_toString Sample.ms
      Sample.JSON_stringify Sample.JSON_parse Sample.calm
      Sample.amb Sample.emitter (PObject 1) Sample.priority_11 []
    = (Throw e, [])
    /\ e = Error (invalid_priority_message "11").
Proof.
  destruct (send_priority_out_of_range Sample.StringToNumber Sample.Date_toString
              Sample.ms Sample.JSON_stringify Sample.JSON_parse Sample.calm
              Sample.amb Sample.emitter (PObject 1) Sample.priority_11
              (Finite 11) [])
    as (e & Hsend & Herr);
    [ vm_compute; reflexivity | right; reflexivity | ].
  exists e. split; [exact Hsend|].
  apply (Herr (Sample.priority_11 ∪ Sample.event_only)).
  vm_compute; reflexivity.
Defined.

Lemma send_unserializable_witness :
  let run :=
    _send Sample.StringToNumber Sample.Date_toString Sample.ms
      Sample.JSON_stringify Sample.JSON_parse Sample.calm
      Sample.amb Sample.emitter PFunction ∅ in
  (exists rest, emitted run [] = Warn unparsable_warning :: rest)
  /\ exists ev,
       outcome run [] = Ok ev
       /\ SentEvent.data ev = PVal JNull
       /\ exists w,
            (exists x k m, In (Publish w x k "null" m) (emitted run []))
            \/ (exists q m, In (SendToQueue w q "null" m) (emitted run [])).
Proof.
  intros run.
  destruct (send_unserializable Sample.StringToNumber Sample.Date_toString
              Sample.ms Sample.JSON_stringify Sample.JSON_parse Sample.calm
              Sample.amb Sample.emitter PFunction ∅ Sample.event_only [])
    as (Hwarn & _ & Hdata & Hdone & _);
    [ discriminate | reflexivity | vm_compute; reflexivity | vm_compute; reflexivity | ].
  split; [exact Hwarn|].
  destruct Hdone as [ev Hev].
  - repeat split; intros; try reflexivity; discriminate.
  - left. vm_compute; reflexivity.
  - exists ev. split; [exact Hev|]. exact (Hdata ev Hev).
Defined.

(** C4, counterexample: the payload [undefined].  [JSON.stringify] of it
    is [undefined], yet the send warns nothing: the default [data = null]
    replaced the payload before it was serialised, the span is tagged with
    [null] and the body ['null'] is published. *)
Lemma send_undefined_payload_counterexample :
  let ev :=
    SentEvent.mk Sample.plain_envelope (JStr "order.created") (PVal JNull) "exit" in
  Sample.JSON_stringify (PVal JUndefined) = Ok None
  /\ _send Sample.StringToNumber Sample.Date_toString Sample.ms
       Sample.JSON_stringify Sample.JSON_parse Sample.calm
       Sample.amb Sample.emitter (PVal JUndefined) ∅ []
     = (Ok ev,
        [StartSpan "Remit Emit: order.created" (PVal JNull);
         Acquired 7%nat;
         Publish 7%nat "remit" (JStr "order.created") "null" Sample.plain_envelope;
         Release 7%nat;
         FinishSpan;
         Yield;
         EmitSent ev]).
Proof. split; vm_compute; reflexivity. Qed.

Lemma setupDemitQueue_queue_name_witness :
  let resolve opts time :=
    outcome (_setupDemitQueue Sample.StringToNumber Sample.Date_toString Sample.calm
               Sample.emitter opts (Finite time)) [] in
  let five := DemitQueue.mk "d:remit:order.created:300000" (JNum (Finite 300000)) in
  let one := DemitQueue.mk "d:remit:order.created:1700000060000" (JNum (Finite 60000)) in
  let two := DemitQueue.mk "d:remit:order.created:1700000120000" (JNum (Finite 120000)) in
  resolve Sample.delay_5m_resolved 1700000000000 = Ok (Some five)
  /\ resolve Sample.delay_5m_resolved 1700000000000 = Ok (Some five)
  /\ DemitQueue.queue five = DemitQueue.queue five
  /\ resolve Sample.schedule_1min_resolved 1700000000000 = Ok (Some one)
  /\ resolve Sample.schedule_2min_resolved 1700000000000 = Ok (Some two)
  /\ DemitQueue.queue one <> DemitQueue.queue two.
Proof.
  intros resolve five one two.
  assert (resolve Sample.delay_5m_resolved 1700000000000 = Ok (Some five)) as H5
    by (vm_compute; reflexivity).
  assert (resolve Sample.schedule_1min_resolved 1700000000000 = Ok (Some one)) as H1
    by (vm_compute; reflexivity).
  assert (resolve Sample.schedule_2min_resolved 1700000000000 = Ok (Some two)) as H2
    by (vm_compute; reflexivity).
  destruct (setupDemitQueue_queue_name Sample.StringToNumber Sample.Date_toString
              Sample.calm Sample.emitter
              Sample.delay_5m_resolved Sample.delay_5m_resolved
              (Finite 1700000000000) (Finite 1700000000000) [] [] five five)
    as (_ & Hsame & _); [exact H5 | exact H5 | reflexivity |].
  destruct (setupDemitQueue_queue_name Sample.StringToNumber Sample.Date_toString
              Sample.calm Sample.emitter
              Sample.schedule_1min_resolved Sample.schedule_2min_resolved
              (Finite 1700000000000) (Finite 1700000000000) [] [] one two)
    as (_ & _ & Hdiffer); [exact H1 | exact H2 | vm_compute; reflexivity |].
  split; [exact H5|]. split; [exact H5|]. split.
  { apply Hsame; vm_compute; reflexivity. }
  split; [exact H1|]. split; [exact H2|].
  apply (Hdiffer 1700000060000 1700000120000);
    [vm_compute; reflexivity | vm_compute; reflexivity | discriminate].
Defined.





Lemma send_priority_zero_witness :
  let send this opts :=
    _send Sample.StringToNumber Sample.Date_toString Sample.ms
      Sample.JSON_stringify Sample.JSON_parse Sample.calm
      Sample.amb this (PObject 1) opts [] in
  send Sample.emitter Sample.priority_0
    = send (without_priority Sample.emitter) (delete "priority" Sample.priority_0)
  /\ outcome (_send Sample.StringToNumber Sample.Date_toString Sample.ms
                Sample.JSON_stringify Sample.JSON_parse Sample.calm
                Sample.amb Sample.emitter (PObject 1) Sample.priority_0) []
     = Ok Sample.plain_event
  /\ Message.priority (SentEvent.envelope Sample.plain_event) = None.
Proof.
  intros send.
  destruct (send_priority_zero Sample.StringToNumber Sample.Date_toString Sample.ms
              Sample.JSON_stringify Sample.JSON_parse Sample.calm
              Sample.amb Sample.emitter (PObject 1) Sample.priority_0
              Sample.priority_0_resolved [])
    as (Hsame & _ & Hnone); [vm_compute; reflexivity | vm_compute; reflexivity |].
  assert (outcome (_send Sample.StringToNumber Sample.Date_toString Sample.ms
                     Sample.JSON_stringify Sample.JSON_parse Sample.calm
                     Sample.amb Sample.emitter (PObject 1) Sample.priority_0) []
          = Ok Sample.plain_event) as Hout by (vm_compute; reflexivity).
  split; [exact Hsame|]. split; [exact Hout|]. exact (Hnone _ Hout).
Defined.

(** C1, the failing run: a plain send by an emitter whose ['sent']
    listener throws.  The publish succeeds and the worker is released;
    the listener's exception is then caught by the same [catch] as a
    failed publish, so the worker that was already released is destroyed
    as well, and the send rejects. *)
Theorem send_releases_then_destroys :
  _send Sample.StringToNumber Sample.Date_toString Sample.ms
    Sample.JSON_stringify Sample.JSON_parse Sample.throwing_listener
    Sample.amb Sample.emitter (PObject 1) ∅ []
  = (Throw (Error "listener failed"),
     [StartSpan "Remit Emit: order.created" (PObject 1);
      Acquired 7%nat;
      Publish 7%nat "remit" (JStr "order.created") "{}" Sample.plain_envelope;
      Release 7%nat;
      FinishSpan;
      Yield;
      EmitSent Sample.plain_event;
      Destroy 7%nat]).
Proof. vm_compute. reflexivity. Qed.

(** The trace of that run does not keep the pool discipline. *)
Example throwing_listener_breaks_discipline :
  disciplined Sample.throwing_listener [] None
    (emitted
       (_send Sample.StringToNumber Sample.Date_toString Sample.ms
          Sample.JSON_stringify Sample.JSON_parse Sample.throwing_listener
          Sample.amb Sample.emitter (PObject 1) ∅) []) = false.
Proof. vm_compute. reflexivity. Qed.

(** The run of the specification's example [send('order.created', {id: 1},
    {delay: '5m'})]: one declaration with [messageTtl = 300000] and
    [expires = 600000], then one routing to that queue, no publish. *)
Example send_delay_5m :
  let m := Message.set_delay (JNum (Finite 300000)) Sample.plain_envelope in
  _send Sample.StringToNumber Sample.Date_toString Sample.ms
    Sample.JSON_stringify Sample.JSON_parse Sample.calm
    Sample.amb Sample.emitter (PObject 1) Sample.delay_5m []
  = (Ok (SentEvent.mk m (JStr "order.created") (PObject 0) "exit"),
     [StartSpan "Remit Emit: order.created" (PObject 1);
      Acquired 7%nat;
      AssertQueue 7%nat "d:remit:order.created:300000"
        (QueueOpts.mk false true true "remit" (JStr "order.created")
           (Some (JNum (Finite 300000))) (Some (JNum (Finite 600000))));
      Release 7%nat;
      Acquired 7%nat;
      SendToQueue 7%nat "d:remit:order.created:300000" "{}" m;
      Release 7%nat;
      FinishSpan;
      Yield;
      EmitSent (SentEvent.mk m (JStr "order.created") (PObject 0) "exit")]).
Proof. vm_compute. reflexivity. Qed.

(** * The further properties on the concrete runtime *)

Lemma generateOptions_throws_witness :
  exists e, _generateOptions Sample.strict_ms Sample.emitter Sample.delay_empty = Throw e.
Proof.
  eexists.
  apply (generateOptions_throws Sample.strict_ms Sample.emitter Sample.delay_empty).
  exists EmptyString. split; vm_compute; reflexivity.
Defined.

Lemma generateOptions_merges_witness :
  Sample.priority_0_resolved !! "event" = Some (JStr "order.created").
Proof.
  rewrite (generateOptions_merges Sample.ms Sample.emitter Sample.priority_0
             Sample.priority_0_resolved "event");
    [ vm_compute; reflexivity
    | vm_compute; reflexivity
    | left; split; discriminate ].
Defined.

Lemma invalid_date_is_sent_at_once_witness :
  exists popts,
    _generateOptions Sample.ms Sample.emitter Sample.delay_invalid_date = Ok popts
    /\ get "delay" popts = JDate None
    /\ get "schedule" popts = JNull
    /\ _setupDemitQueue Sample.StringToNumber Sample.Date_toString Sample.calm
         Sample.emitter popts (Finite (now Sample.amb)) [] = (Ok None, []).
Proof.
  apply (invalid_date_is_sent_at_once Sample.StringToNumber Sample.Date_toString
           Sample.ms Sample.calm Sample.emitter Sample.delay_invalid_date).
  vm_compute; reflexivity.
Defined.

Lemma new_Emitter_event_witness :
  new_Emitter Sample.ms Sample.the_remit (Options ∅) = Throw (Error no_event_message)
  /\ get "event" (stored Sample.emitter_delay_1s) = JStr "order.created".
Proof.
  split.
  - apply (new_Emitter_event Sample.ms Sample.the_remit (Options ∅)).
    vm_compute; reflexivity.
  - apply (new_Emitter_event Sample.ms Sample.the_remit (Options Sample.delay_1s)).
    vm_compute; reflexivity.
Defined.

Lemma new_Emitter_by_name_witness :
  new_Emitter Sample.ms Sample.the_remit (EventName "order.created") = Ok Sample.emitter.
Proof.
  apply (new_Emitter_by_name Sample.ms Sample.the_remit "order.created").
  discriminate.
Defined.

Lemma options_then_send_witness :
  _send Sample.StringToNumber Sample.Date_toString Sample.ms
    Sample.JSON_stringify Sample.JSON_parse Sample.calm
    Sample.amb Sample.emitter_delay_5m (PObject 1) Sample.priority_0 []
  = _send Sample.StringToNumber Sample.Date_toString Sample.ms
      Sample.JSON_stringify Sample.JSON_parse Sample.calm
      Sample.amb Sample.emitter (PObject 1) (Sample.priority_0 ∪ Sample.delay_5m) [].
Proof.
  apply (options_then_send Sample.StringToNumber Sample.Date_toString Sample.ms
           Sample.JSON_stringify Sample.JSON_parse Sample.calm Sample.amb
           Sample.emitter Sample.emitter_delay_5m (PObject 1)
           Sample.delay_5m Sample.priority_0 []).
  - vm_compute; reflexivity.
  - left. vm_compute; reflexivity.
Defined.

Lemma send_disciplined_witness :
  disciplined Sample.refusing [] None
    (emitted
       (_send Sample.StringToNumber Sample.Date_toString Sample.ms
          Sample.JSON_stringify Sample.JSON_parse Sample.refusing
          Sample.amb Sample.emitter (PObject 1) Sample.delay_5m) []) = true.
Proof.
  apply (send_disciplined Sample.StringToNumber Sample.Date_toString Sample.ms
           Sample.JSON_stringify Sample.JSON_parse Sample.refusing).
  intros h ev. reflexivity.
Defined.

Lemma send_returns_emitted_event_witness :
  exists pre w,
    emitted
      (_send Sample.StringToNumber Sample.Date_toString Sample.ms
         Sample.JSON_stringify Sample.JSON_parse Sample.calm
         Sample.amb Sample.emitter (PObject 1) ∅) []
    = (pre ++ [Release w; FinishSpan; Yield; EmitSent Sample.plain_event])%list.
Proof.
  apply (send_returns_emitted_event Sample.StringToNumber Sample.Date_toString
           Sample.ms Sample.JSON_stringify Sample.JSON_parse Sample.calm
           Sample.amb Sample.emitter (PObject 1) ∅ Sample.event_only []
           Sample.plain_event);
    vm_compute; reflexivity.
Defined.

Lemma send_failure_leaves_span_open_witness :
  let run :=
    _send Sample.StringToNumber Sample.Date_toString Sample.ms
      Sample.JSON_stringify Sample.JSON_parse Sample.calm
      Sample.amb Sample.emitter (PObject 1) Sample.delay_zero in
  outcome run [] = Throw (Error invalid_delay_message)
  /\ In (StartSpan "Remit Emit: order.created" (PObject 1)) (emitted run [])
  /\ ~ In FinishSpan (emitted run []).
Proof.
  intros run.
  assert (outcome run [] = Throw (Error invalid_delay_message)) as Hout
    by (vm_compute; reflexivity).
  split; [exact Hout|]. split; [vm_compute; left; reflexivity|].
  intros Hin.
  exact (send_failure_leaves_span_open Sample.StringToNumber Sample.Date_toString
           Sample.ms Sample.JSON_stringify Sample.JSON_parse Sample.calm
           Sample.amb Sample.emitter (PObject 1) Sample.delay_zero []
           (Error invalid_delay_message) (fun _ _ => eq_refl) Hout FinishSpan Hin).
Defined.

Lemma send_stringify_throws_witness :
  _send Sample.StringToNumber Sample.Date_toString Sample.ms
    Sample.strict_JSON_stringify Sample.JSON_parse Sample.calm
    Sample.amb Sample.emitter (PObject 0) ∅ []
  = (Throw Sample.circular, []).
Proof.
  apply (send_stringify_throws Sample.StringToNumber Sample.Date_toString Sample.ms
           Sample.strict_JSON_stringify Sample.JSON_parse Sample.calm
           Sample.amb Sample.emitter (PObject 0) ∅ Sample.event_only []);
    vm_compute; reflexivity.
Defined.

Lemma send_priority_attached_witness :
  let m := Message.set_priority (JNum (Finite 3)) Sample.plain_envelope in
  In (Publish 7%nat "remit" (JStr "order.created") "{}" m)
     (emitted
        (_send Sample.StringToNumber Sample.Date_toString Sample.ms
           Sample.JSON_stringify Sample.JSON_parse Sample.calm
           Sample.amb Sample.emitter (PObject 1) Sample.priority_3) [])
  /\ Message.priority m = Some (JNum (Finite 3)).
Proof.
  intros m.
  assert (In (Publish 7%nat "remit" (JStr "order.created") "{}" m)
            (emitted
               (_send Sample.StringToNumber Sample.Date_toString Sample.ms
                  Sample.JSON_stringify Sample.JSON_parse Sample.calm
                  Sample.amb Sample.emitter (PObject 1) Sample.priority_3) []))
    as Hin by (vm_compute; right; right; left; reflexivity).
  split; [exact Hin|].
  destruct (send_priority_attached Sample.StringToNumber Sample.Date_toString
              Sample.ms Sample.JSON_stringify Sample.JSON_parse Sample.calm
              Sample.amb Sample.emitter (PObject 1) Sample.priority_3
              Sample.priority_3_resolved 3 [])
    as [_ Hattached]; [vm_compute; reflexivity | vm_compute; reflexivity | lia |].
  exact (Hattached _ m Hin eq_refl).
Defined.

Lemma send_priority_not_a_number_witness :
  let m := Message.set_priority (JStr "high") Sample.plain_envelope in
  In (Publish 7%nat "remit" (JStr "order.created") "{}" m)
     (emitted
        (_send Sample.StringToNumber Sample.Date_toString Sample.ms
           Sample.JSON_stringify Sample.JSON_parse Sample.calm
           Sample.amb Sample.emitter (PObject 1) Sample.priority_high) [])
  /\ Message.priority m = Some (get "priority" Sample.priority_high_resolved).
Proof.
  intros m.
  assert (In (Publish 7%nat "remit" (JStr "order.created") "{}" m)
            (emitted
               (_send Sample.StringToNumber Sample.Date_toString Sample.ms
                  Sample.JSON_stringify Sample.JSON_parse Sample.calm
                  Sample.amb Sample.emitter (PObject 1) Sample.priority_high) []))
    as Hin by (vm_compute; right; right; left; reflexivity).
  split; [exact Hin|].
  destruct (send_priority_not_a_number Sample.StringToNumber Sample.Date_toString
              Sample.ms Sample.JSON_stringify Sample.JSON_parse Sample.calm
              Sample.amb Sample.emitter (PObject 1) Sample.priority_high
              Sample.priority_high_resolved [])
    as [_ Hattached]; [vm_compute; reflexivity | vm_compute; reflexivity
                      | vm_compute; reflexivity |].
  exact (Hattached _ m Hin eq_refl).
Defined.

Lemma send_deferred_envelope_witness :
  let m := Message.set_delay (JNum (Finite 300000)) Sample.plain_envelope in
  In (SendToQueue 7%nat "d:remit:order.created:300000" "{}" m)
     (emitted
        (_send Sample.StringToNumber Sample.Date_toString Sample.ms
           Sample.JSON_stringify Sample.JSON_parse Sample.calm
           Sample.amb Sample.emitter (PObject 1) Sample.delay_5m) [])
  /\ Headers.delay (Message.headers m) = Some (get "delay" Sample.delay_5m_resolved)
  /\ Headers.scheduled (Message.headers m) = None
  /\ Message.expiration m = None.
Proof.
  intros m.
  assert (In (SendToQueue 7%nat "d:remit:order.created:300000" "{}" m)
            (emitted
               (_send Sample.StringToNumber Sample.Date_toString Sample.ms
                  Sample.JSON_stringify Sample.JSON_parse Sample.calm
                  Sample.amb Sample.emitter (PObject 1) Sample.delay_5m) []))
    as Hin by (vm_compute; do 5 right; left; reflexivity).
  split; [exact Hin|].
  destruct (send_deferred_envelope Sample.StringToNumber Sample.Date_toString
              Sample.ms Sample.JSON_stringify Sample.JSON_parse Sample.calm
              Sample.amb Sample.emitter (PObject 1) Sample.delay_5m
              Sample.delay_5m_resolved [] 7%nat "d:remit:order.created:300000" "{}" m)
    as (_ & _ & Hdelay); [vm_compute; reflexivity | exact Hin |].
  apply Hdelay. vm_compute; reflexivity.
Defined.

Lemma send_routing_key_witness :
  In (Publish 7%nat "remit" (JStr "order.paid") "{}" Sample.plain_envelope)
     (emitted
        (_send Sample.StringToNumber Sample.Date_toString Sample.ms
           Sample.JSON_stringify Sample.JSON_parse Sample.calm
           Sample.amb Sample.emitter (PObject 1) Sample.event_paid) [])
  /\ JStr "order.paid"
     = match Sample.event_paid !! "event" with
       | Some v => v
       | None => get "event" (stored Sample.emitter)
       end.
Proof.
  assert (In (Publish 7%nat "remit" (JStr "order.paid") "{}" Sample.plain_envelope)
            (emitted
               (_send Sample.StringToNumber Sample.Date_toString Sample.ms
                  Sample.JSON_stringify Sample.JSON_parse Sample.calm
                  Sample.amb Sample.emitter (PObject 1) Sample.event_paid) []))
    as Hin by (vm_compute; right; right; left; reflexivity).
  split; [exact Hin|].
  exact (proj2 (send_routing_key Sample.StringToNumber Sample.Date_toString
                  Sample.ms Sample.JSON_stringify Sample.JSON_parse Sample.calm
                  Sample.amb Sample.emitter (PObject 1) Sample.event_paid []
                  7%nat "remit" (JStr "order.paid") "{}" Sample.plain_envelope Hin)).
Defined.

Lemma send_refused_witness :
  let run :=
    _send Sample.StringToNumber Sample.Date_toString Sample.ms
      Sample.JSON_stringify Sample.JSON_parse Sample.refusing
      Sample.amb Sample.emitter (PObject 1) ∅ in
  let ev := Publish 7%nat "remit" (JStr "order.created") "{}" Sample.plain_envelope in
  outcome run [] = Throw Sample.channel_closed
  /\ exists pre, emitted run [] = (pre ++ [ev; Destroy 7%nat])%list.
Proof.
  intros run ev.
  apply (send_refused Sample.StringToNumber Sample.Date_toString Sample.ms
           Sample.JSON_stringify Sample.JSON_parse Sample.refusing
           Sample.amb Sample.emitter (PObject 1) ∅ [] Sample.channel_closed ev 7%nat).
  - split; intros; reflexivity.
  - vm_compute. right. right. left. reflexivity.
  - reflexivity.
Defined.

Lemma send_without_worker_witness :
  let run :=
    _send Sample.StringToNumber Sample.Date_toString Sample.ms
      Sample.JSON_stringify Sample.JSON_parse Sample.exhausted
      Sample.amb Sample.emitter (PObject 1) Sample.delay_5m in
  (exists e', outcome run [] = Throw e')
  /\ forall ev, In ev (emitted run []) -> pool_or_channel ev = false.
Proof.
  intros run.
  apply (send_without_worker Sample.StringToNumber Sample.Date_toString Sample.ms
           Sample.JSON_stringify Sample.JSON_parse Sample.exhausted
           Sample.amb Sample.emitter (PObject 1) Sample.delay_5m []
           Sample.pool_timeout).
  intros h. reflexivity.
Defined.

Lemma options_event_witness :
  let falsy : obj := <["event" := JNull]> ∅ in
  let this' := {| _remit := Sample.the_remit;
                  _options := Some (falsy ∪ Sample.event_only) |} in
  options Sample.ms Sample.emitter falsy = Ok this'
  /\ get "event" (stored this') = JNull.
Proof.
  intros falsy this'.
  assert (options Sample.ms Sample.emitter falsy = Ok this') as Hopt
    by (vm_compute; reflexivity).
  split; [exact Hopt|].
  exact (proj2 (options_event Sample.ms Sample.emitter this' falsy Hopt)).
Defined.
